(** * customTreeWidgetUI: a tree widget filled from a folder dictionary

    Shallow embedding of [customTreeWidgetUI.py].  The Python classes
    [CustomTreeItem], [CustomTreeWidget] and [UI] become state-passing
    programs over the objects they mutate; Python exceptions become the
    [Raises] outcome, which keeps the state reached when the exception left
    the code. *)

From stdpp Require Import base strings list gmap.

(** ** Exceptions and the state-and-exception monad *)

Inductive Exception : Type :=
| KeyError (key : string)        (* [d[key]] on a dict without [key] *)
| IndexError                     (* [l[0]] on an empty list *)
| AttributeError (attr : string) (* an attribute read before it was assigned *)
| RuntimeError                   (* a reference to an item the tree does not own *)
| ValueError.                    (* a text with an embedded NUL handed to the toolkit *)

Inductive Outcome (S A : Type) : Type :=
| Returns (a : A) (s : S)
| Raises (e : Exception) (s : S).
Arguments Returns {S A} a s.
Arguments Raises {S A} e s.

Definition M (S A : Type) : Type := S → Outcome S A.

Definition raise {S A} (e : Exception) : M S A := λ s, Raises e s.
Definition gets {S A} (f : S → A) : M S A := λ s, Returns (f s) s.
Definition modify {S} (f : S → S) : M S unit := λ s, Returns () (f s).

#[global] Instance M_ret {S} : MRet (M S) := λ A a s, Returns a s.
#[global] Instance M_bind {S} : MBind (M S) := λ A B f m s,
  match m s with
  | Returns a s' => f a s'
  | Raises e s' => Raises e s'
  end.

Definition final_state {S A} (o : Outcome S A) : S :=
  match o with Returns _ s => s | Raises _ s => s end.

Definition returned {S A} (o : Outcome S A) : bool :=
  match o with Returns _ _ => true | Raises _ _ => false end.

(** ** The data handed to the widget *)

(** A file's information: a dict from field name to text. *)
Abbreviation FileInfo := (gmap string string).

(** The dictionary is iterated with [.items()], so its insertion order is
    part of the model: an association list from folder to the nested list of
    file dicts. *)
Abbreviation Data := (list (string * list (list FileInfo))).

Definition file (sequence shot version location : string) : FileInfo :=
  <["Sequence" := sequence]> (<["Shot" := shot]>
    (<["Version" := version]> (<["Location" := location]> ∅))).

(** [name[key]] *)
Definition dict_getitem {S} (name : FileInfo) (key : string) : M S string :=
  match name !! key with
  | Some v => mret v
  | None => raise (KeyError key)
  end.

(** [val[0]] *)
Definition list_getitem0 {S A} (val : list A) : M S A :=
  match val with
  | x :: _ => mret x
  | [] => raise IndexError
  end.

(** ** Toolkit objects *)

Record QLabel : Type := { text : string }.

Definition QLabel_new : QLabel := {| text := "" |}.

(** Whether a text holds the NUL character. *)
Fixpoint has_nul (s : string) : bool :=
  match s with
  | EmptyString => false
  | String c s' => if Ascii.eqb c Ascii.zero then true else has_nul s'
  end.

(** [label.setText(s)]: the toolkit refuses a text with an embedded NUL
    character with [ValueError] and leaves the label as it was. *)
Definition setText {S} (s : string) (_ : QLabel) : M S QLabel :=
  if has_nul s then raise ValueError else mret {| text := s |}.

(** What an item is created under, and what [_header] holds: the tree
    widget itself, or an item of the tree (by creation index). *)
Inductive Ref : Type :=
| TheWidget
| AnItem (id : nat).

Definition isinstance_CustomTreeWidget (r : Ref) : bool :=
  match r with TheWidget => true | AnItem _ => false end.

(** The label attributes of an item, in column order. *)
Inductive Attr : Type := sequence | shot | version | location.

Definition attr_name (a : Attr) : string :=
  match a with
  | sequence => "_sequence_widget"
  | shot => "_shot_widget"
  | version => "_version_widget"
  | location => "_location_widget"
  end.

Definition column (a : Attr) : nat :=
  match a with sequence => 0 | shot => 1 | version => 2 | location => 3 end.

Definition key_of (a : Attr) : string :=
  match a with
  | sequence => "Sequence"
  | shot => "Shot"
  | version => "Version"
  | location => "Location"
  end.

Module CustomTreeItem.

(** An item object.  The four label attributes are unset until
    [__init__] assigns them. *)
Record t : Type := mk {
  parent : Ref;
  childItems : list nat;
  _sequence_widget : option QLabel;
  _shot_widget : option QLabel;
  _version_widget : option QLabel;
  _location_widget : option QLabel
}.

Definition blank (p : Ref) : t := mk p [] None None None None.

Definition addChild (c : nat) (i : t) : t :=
  mk (parent i) (childItems i ++ [c]) (_sequence_widget i) (_shot_widget i)
     (_version_widget i) (_location_widget i).

Definition getattr (a : Attr) (i : t) : option QLabel :=
  match a with
  | sequence => _sequence_widget i
  | shot => _shot_widget i
  | version => _version_widget i
  | location => _location_widget i
  end.

Definition setattr (a : Attr) (l : QLabel) (i : t) : t :=
  match a with
  | sequence => mk (parent i) (childItems i) (Some l) (_shot_widget i)
                   (_version_widget i) (_location_widget i)
  | shot => mk (parent i) (childItems i) (_sequence_widget i) (Some l)
               (_version_widget i) (_location_widget i)
  | version => mk (parent i) (childItems i) (_sequence_widget i) (_shot_widget i)
                  (Some l) (_location_widget i)
  | location => mk (parent i) (childItems i) (_sequence_widget i) (_shot_widget i)
                   (_version_widget i) (Some l)
  end.

End CustomTreeItem.

Module CustomTreeWidget.

(** The tree widget together with the items it owns.  [items] is the
    store of item objects, an item's identity being its index there. *)
Record t : Type := mk {
  _data : Data;
  columnCount : nat;
  headerLabels : list string;
  topLevelItems : list nat;
  itemWidgets : gmap (nat * nat) QLabel;
  items : list CustomTreeItem.t;
  selectedItems : list nat
}.

Definition _HEADERS : list string := ["Sequence"; "Shot"; "Version"; "Location"].

Definition headers (w : t) : list string := _HEADERS.
Definition data (w : t) : Data := _data w.

(** [QTreeWidget.__init__] followed by [self._data = data]. *)
Definition fresh (d : Data) : t := mk d 1 ["1"] [] ∅ [] [].

Definition with_items (f : list CustomTreeItem.t → list CustomTreeItem.t) (w : t) : t :=
  mk (_data w) (columnCount w) (headerLabels w) (topLevelItems w)
     (itemWidgets w) (f (items w)) (selectedItems w).

Definition addTopLevelItem (id : nat) (w : t) : t :=
  mk (_data w) (columnCount w) (headerLabels w) (topLevelItems w ++ [id])
     (itemWidgets w) (items w) (selectedItems w).

Definition setColumnCount (n : nat) : M t unit :=
  modify (λ w, mk (_data w) n (headerLabels w) (topLevelItems w)
                  (itemWidgets w) (items w) (selectedItems w)).

Definition setHeaderLabels (l : list string) : M t unit :=
  modify (λ w, mk (_data w) (columnCount w) l (topLevelItems w)
                  (itemWidgets w) (items w) (selectedItems w)).

Definition setItemWidget (id col : nat) (l : QLabel) : M t unit :=
  modify (λ w, mk (_data w) (columnCount w) (headerLabels w) (topLevelItems w)
                  (<[(id, col) := l]> (itemWidgets w)) (items w) (selectedItems w)).

(** The user's selection, made in the view. *)
Definition select (sel : list nat) (w : t) : t :=
  mk (_data w) (columnCount w) (headerLabels w) (topLevelItems w)
     (itemWidgets w) (items w) sel.

(** [resizeColumnToContents(50)]: the widget has no column 50, so the
    call changes nothing. *)
Definition resizeColumnToContents (col : nat) : M t unit := mret ().

End CustomTreeWidget.

Abbreviation Widget := CustomTreeWidget.t.

(** ** [CustomTreeItem.__init__]

    [top_item] is always the one tree widget, which is the state the
    program runs on. *)

(** [QTreeWidgetItem.__init__(parent)]: the new item is appended to the
    tree's top level when the parent is the widget, and to the parent's
    children when the parent is an item. *)
Definition QTreeWidgetItem__init__ (parent : Ref) : M Widget nat := λ w,
  let self := length (CustomTreeWidget.items w) in
  match parent with
  | TheWidget =>
      Returns self
        (CustomTreeWidget.addTopLevelItem self
           (CustomTreeWidget.with_items (λ l, l ++ [CustomTreeItem.blank parent]) w))
  | AnItem p =>
      Returns self
        (CustomTreeWidget.with_items
           (λ l, alter (CustomTreeItem.addChild self) p l ++ [CustomTreeItem.blank parent]) w)
  end.

(** [self._x_widget = label] *)
Definition assign (self : nat) (a : Attr) (l : QLabel) : M Widget unit :=
  modify (CustomTreeWidget.with_items (alter (CustomTreeItem.setattr a l) self)).

(** [self._x_widget], read back *)
Definition read (self : nat) (a : Attr) : M Widget QLabel := λ w,
  match CustomTreeWidget.items w !! self with
  | None => Raises RuntimeError w
  | Some i =>
      match CustomTreeItem.getattr a i with
      | Some l => Returns l w
      | None => Raises (AttributeError (attr_name a)) w
      end
  end.

(** One column block of [__init__]:
      self._x_widget = QLabel()
      self._x_widget.setText(name[key])
      top_item.setItemWidget(self, col, self._x_widget) *)
Definition build_column (self : nat) (a : Attr) (name : FileInfo) : M Widget unit :=
  assign self a QLabel_new;;
  l ← read self a;
  v ← dict_getitem name (key_of a);
  l_set ← setText v l;
  assign self a l_set;;
  l' ← read self a;
  CustomTreeWidget.setItemWidget self (column a) l'.

Definition CustomTreeItem__init__ (name : FileInfo) (parent : Ref) : M Widget nat :=
  self ← QTreeWidgetItem__init__ parent;
  build_column self sequence name;;
  build_column self shot name;;
  build_column self version name;;
  build_column self location name;;
  mret self.

(** ** [CustomTreeWidget.__init__] *)

(** [for val in reversed(value)], [_header] being the loop's variable. *)
Fixpoint for_val (vals : list (list FileInfo)) (_header : Ref) : M Widget Ref :=
  match vals with
  | [] => mret _header
  | val :: rest =>
      name ← list_getitem0 val;
      _item ← CustomTreeItem__init__ name _header;
      for_val rest (if isinstance_CustomTreeWidget _header then AnItem _item else _header)
  end.

(** The body of [for key, value in self.data.items()]. *)
Definition for_key_body (value : list (list FileInfo)) : M Widget unit :=
  for_val (rev value) TheWidget;; mret ().

Fixpoint for_key (kvs : Data) : M Widget unit :=
  match kvs with
  | [] => mret ()
  | (key, value) :: rest => for_key_body value;; for_key rest
  end.

Fixpoint resize_columns (n : nat) : M Widget unit :=
  match n with
  | 0 => mret ()
  | S k => CustomTreeWidget.resizeColumnToContents 50;; resize_columns k
  end.

Definition CustomTreeWidget__init__ (data : Data) : Outcome Widget unit :=
  (hs ← gets CustomTreeWidget.headers;
   CustomTreeWidget.setColumnCount (length hs);;
   hs' ← gets CustomTreeWidget.headers;
   CustomTreeWidget.setHeaderLabels hs';;
   d ← gets CustomTreeWidget.data;
   for_key d;;
   n ← gets CustomTreeWidget.columnCount;
   resize_columns n) (CustomTreeWidget.fresh data).

(** ** The example dictionary and the window *)

Definition _data : Data :=
  [ ("/folderOne",
      [ [file "zzz999" "zzz_1234" "01" "/file/path"] ]);
    ("/folderTwo",
      [ [file "zzz999" "zzz999_000" "01" "/file/path"];
        [file "zzz999" "zzz999_000" "02" "/file/path"] ]);
    ("/folderThree",
      [ [file "abc111" "abc111_5678" "01" "/file/path"];
        [file "abc111" "abc111_5678" "02" "/file/path"];
        [file "abc111" "abc111_5678" "03" "/file/path"];
        [file "abc111" "abc111_5678" "05" "/file/path"] ]) ].

Module UI.

Record t : Type := mk {
  treeWidget : Widget;
  _show_data_useage_btn : string
}.

(** The running program: the window and what it has printed. *)
Record Process : Type := run {
  window : t;
  stdout : list string
}.

Definition print (line : string) : M Process unit :=
  modify (λ p, run (window p) (stdout p ++ [line])).

(** [selected.<attr>.text()] *)
Definition attr_text (selected : nat) (a : Attr) : M Process string := λ p,
  match read selected a (treeWidget (window p)) with
  | Returns l _ => Returns (text l) p
  | Raises e _ => Raises e p
  end.

Definition __init__ : Exception + t :=
  match CustomTreeWidget__init__ _data with
  | Returns _ w => inr (mk w "Select a row and see the printed data!")
  | Raises e _ => inl e
  end.

Fixpoint for_selected (_selected_items : list nat) : M Process unit :=
  match _selected_items with
  | [] => mret ()
  | selected :: rest =>
      s ← attr_text selected sequence;
      print (">> Sequence: " +:+ s);;
      s ← attr_text selected shot;
      print (">> Shot: " +:+ s);;
      s ← attr_text selected version;
      print (">> Version: " +:+ s);;
      s ← attr_text selected location;
      print (">> Location: " +:+ s);;
      for_selected rest
  end.

Definition show_data_useage : M Process unit :=
  _selected_items ← gets (λ p, CustomTreeWidget.selectedItems (treeWidget (window p)));
  match _selected_items with
  | [] => print "Please select a row"
  | _ :: _ => for_selected _selected_items
  end.

End UI.

(** ** Reading the tree as the view shows it *)

Definition item_of (w : Widget) (id : nat) : option CustomTreeItem.t :=
  CustomTreeWidget.items w !! id.

Definition children_of (w : Widget) (id : nat) : list nat :=
  from_option CustomTreeItem.childItems [] (item_of w id).

(** Rows in view order: an item, then its children's rows.  The fuel bounds
    the depth, which never exceeds the number of items. *)
Fixpoint rows_from (fuel : nat) (w : Widget) (id : nat) : list nat :=
  match fuel with
  | 0 => []
  | S f => id :: flat_map (rows_from f w) (children_of w id)
  end.

Definition rows (w : Widget) : list nat :=
  flat_map (rows_from (length (CustomTreeWidget.items w)) w)
           (CustomTreeWidget.topLevelItems w).

(** The four texts a row shows, read from the labels set on its columns. *)
Definition shown (w : Widget) (id : nat) : list (option string) :=
  map (λ a, text <$> CustomTreeWidget.itemWidgets w !! (id, column a))
      [sequence; shot; version; location].

(** The four texts an item's properties give back. *)
Definition fields (w : Widget) (id : nat) : list (option string) :=
  map (λ a, text <$> (item_of w id ≫= CustomTreeItem.getattr a))
      [sequence; shot; version; location].

(** The four values of a file dict. *)
Definition values (name : FileInfo) : list (option string) :=
  map (λ a, name !! key_of a) [sequence; shot; version; location].


(** ** Inputs the loops can consume *)

Definition has_key (name : FileInfo) (a : Attr) : bool :=
  if name !! key_of a is Some _ then true else false.

(** A file dict with the four keys [__init__] reads. *)
Definition complete (name : FileInfo) : bool :=
  has_key name sequence && has_key name shot &&
  has_key name version && has_key name location.

(** A key that is present with a text the label takes. *)
Definition settable (name : FileInfo) (a : Attr) : bool :=
  if name !! key_of a is Some v then negb (has_nul v) else false.

(** A file dict from which [__init__] can set its four labels. *)
Definition accepted (name : FileInfo) : bool :=
  settable name sequence && settable name shot &&
  settable name version && settable name location.

(** A nested list whose element 0 exists and is accepted. *)
Definition usable (val : list FileInfo) : bool :=
  match val with
  | name :: _ => accepted name
  | [] => false
  end.

Definition well_formed (data : Data) : bool :=
  forallb (λ kv, forallb usable kv.2) data.

(** ** The state a successful construction leaves, written directly *)

Definition value (name : FileInfo) (a : Attr) : string :=
  default "" (name !! key_of a).

Definition label (name : FileInfo) (a : Attr) : QLabel := {| text := value name a |}.

Definition created (p : Ref) (kids : list nat) (name : FileInfo) : CustomTreeItem.t :=
  CustomTreeItem.mk p kids (Some (label name sequence)) (Some (label name shot))
    (Some (label name version)) (Some (label name location)).

Definition attach (parent : Ref) (it : CustomTreeItem.t) (w : Widget) : Widget :=
  let self := length (CustomTreeWidget.items w) in
  match parent with
  | TheWidget =>
      CustomTreeWidget.addTopLevelItem self
        (CustomTreeWidget.with_items (λ l, l ++ [it]) w)
  | AnItem p =>
      CustomTreeWidget.with_items
        (λ l, alter (CustomTreeItem.addChild self) p l ++ [it]) w
  end.

Definition install (self : nat) (name : FileInfo) (iw : gmap (nat * nat) QLabel)
  : gmap (nat * nat) QLabel :=
  <[(self, 3) := label name location]>
    (<[(self, 2) := label name version]>
       (<[(self, 1) := label name shot]>
          (<[(self, 0) := label name sequence]> iw))).

Definition with_itemWidgets
    (f : gmap (nat * nat) QLabel → gmap (nat * nat) QLabel) (w : Widget) : Widget :=
  CustomTreeWidget.mk (CustomTreeWidget._data w) (CustomTreeWidget.columnCount w)
    (CustomTreeWidget.headerLabels w) (CustomTreeWidget.topLevelItems w)
    (f (CustomTreeWidget.itemWidgets w)) (CustomTreeWidget.items w)
    (CustomTreeWidget.selectedItems w).

(** One item made from [name] under [parent]. *)
Definition place (parent : Ref) (name : FileInfo) (w : Widget) : Widget :=
  with_itemWidgets (install (length (CustomTreeWidget.items w)) name)
    (attach parent (created parent [] name) w).

(** The file dicts one folder's loop reads, in the order it reads them. *)
Definition newest_first (value : list (list FileInfo)) : list FileInfo :=
  omap head (rev value).

(** One folder's items: the first under the widget, the rest under the first. *)
Definition place_folder (names : list FileInfo) (w : Widget) : Widget :=
  match names with
  | [] => w
  | name :: rest =>
      foldl (λ w' nm, place (AnItem (length (CustomTreeWidget.items w))) nm w')
            (place TheWidget name w) rest
  end.

Definition place_all (data : Data) (w : Widget) : Widget :=
  foldl (λ w' kv, place_folder (newest_first kv.2) w') w data.

(** The file dicts of all items, in creation order. *)
Definition all_names (data : Data) : list FileInfo :=
  flat_map (λ kv, newest_first kv.2) data.

(** The items of one folder whose first item gets index [n]. *)
Definition folder_items (n : nat) (names : list FileInfo) : list CustomTreeItem.t :=
  match names with
  | [] => []
  | name :: rest =>
      created TheWidget (seq (S n) (length rest)) name
        :: (created (AnItem n) [] <$> rest)
  end.

Fixpoint layout (n : nat) (data : Data) : list CustomTreeItem.t :=
  match data with
  | [] => []
  | kv :: rest =>
      folder_items n (newest_first kv.2)
        ++ layout (n + length (newest_first kv.2)) rest
  end.

Fixpoint tops (n : nat) (data : Data) : list nat :=
  match data with
  | [] => []
  | kv :: rest =>
      match newest_first kv.2 with [] => [] | _ :: _ => [n] end
        ++ tops (n + length (newest_first kv.2)) rest
  end.

Fixpoint install_from (n : nat) (names : list FileInfo) (iw : gmap (nat * nat) QLabel)
  : gmap (nat * nat) QLabel :=
  match names with
  | [] => iw
  | name :: rest => install_from (S n) rest (install n name iw)
  end.

(** An item that has been given further children. *)
Definition adopt (kids : list nat) (i : CustomTreeItem.t) : CustomTreeItem.t :=
  CustomTreeItem.mk (CustomTreeItem.parent i) (CustomTreeItem.childItems i ++ kids)
    (CustomTreeItem._sequence_widget i) (CustomTreeItem._shot_widget i)
    (CustomTreeItem._version_widget i) (CustomTreeItem._location_widget i).

(** The widget when the loop over the dictionary starts. *)
Definition prepared (data : Data) : Widget :=
  CustomTreeWidget.mk data 4 CustomTreeWidget._HEADERS [] ∅ [] [].

(** The texts of an item's four labels, and of the labels made from a dict. *)
Definition item_fields (i : CustomTreeItem.t) : list (option string) :=
  map (λ a, text <$> CustomTreeItem.getattr a i) [sequence; shot; version; location].

Definition texts (name : FileInfo) : list (option string) :=
  map (λ a, Some (value name a)) [sequence; shot; version; location].

(** The four values of the dict a nested list holds at index 0. *)
Definition first_values (val : list FileInfo) : list (option string) :=
  match val with
  | name :: _ => values name
  | [] => []
  end.

(** The dictionary with every nested list cut down to its element 0. *)
Definition first_only (data : Data) : Data :=
  (λ kv : string * list (list FileInfo), (kv.1, take 1 <$> kv.2)) <$> data.

(** The lines [show_data_useage] prints for an item made from [name]. *)
Definition field_lines (name : FileInfo) : list string :=
  [ ">> Sequence: " +:+ value name sequence;
    ">> Shot: " +:+ value name shot;
    ">> Version: " +:+ value name version;
    ">> Location: " +:+ value name location ].

(** How many children each top-level item has, top to bottom. *)
Definition child_counts (w : Widget) : list nat :=
  (λ id, length (children_of w id)) <$> CustomTreeWidget.topLevelItems w.

(** A program that leaves the widget's [_data] as it found it, whether it
    returns or raises. *)
Definition keeps {A} (m : M Widget A) : Prop :=
  ∀ w, CustomTreeWidget._data (final_state (m w)) = CustomTreeWidget._data w.

(** ** Further notions used to state what the construction keeps *)

(** The exception one column block ends with, if any: [KeyError] when the
    key is absent, [ValueError] when its text holds a NUL. *)
Definition column_error (name : FileInfo) (a : Attr) : option Exception :=
  match name !! key_of a with
  | None => Some (KeyError (key_of a))
  | Some v => if has_nul v then Some ValueError else None
  end.

(** The exception [__init__] ends with, if any: that of the first column
    block, in the order it runs them, that raises. *)
Definition init_error (name : FileInfo) : option Exception :=
  match column_error name sequence with
  | Some e => Some e
  | None =>
      match column_error name shot with
      | Some e => Some e
      | None =>
          match column_error name version with
          | Some e => Some e
          | None => column_error name location
          end
      end
  end.

(** The attribute whose label [__init__] sets on a column. *)
Definition column_attr (c : nat) : option Attr :=
  match c with
  | 0 => Some sequence
  | 1 => Some shot
  | 2 => Some version
  | 3 => Some location
  | _ => None
  end.

(** A program that leaves a part [part] of the widget as it found it,
    whether it returns or raises. *)
Definition preserves {X A} (part : Widget → X) (m : M Widget A) : Prop :=
  ∀ w, part (final_state (m w)) = part w.

(** The column count, the header labels and the selection. *)
Definition settings (w : Widget) : nat * list string * list nat :=
  (CustomTreeWidget.columnCount w, CustomTreeWidget.headerLabels w,
   CustomTreeWidget.selectedItems w).

(** The tree itself: the items, the top level and the column widgets. *)
Definition tree (w : Widget)
  : list CustomTreeItem.t * list nat * gmap (nat * nat) QLabel :=
  (CustomTreeWidget.items w, CustomTreeWidget.topLevelItems w,
   CustomTreeWidget.itemWidgets w).

(** The widget holding another dictionary in [_data]. *)
Definition set_data (d : Data) (w : Widget) : Widget :=
  CustomTreeWidget.mk d (CustomTreeWidget.columnCount w)
    (CustomTreeWidget.headerLabels w) (CustomTreeWidget.topLevelItems w)
    (CustomTreeWidget.itemWidgets w) (CustomTreeWidget.items w)
    (CustomTreeWidget.selectedItems w).

Definition on_state {S A} (f : S → S) (o : Outcome S A) : Outcome S A :=
  match o with
  | Returns a s => Returns a (f s)
  | Raises e s => Raises e (f s)
  end.

(** A program that never looks at [_data]. *)
Definition ignores_data {A} (m : M Widget A) : Prop :=
  ∀ d w, m (set_data d w) = on_state (set_data d) (m w).

(** A program of the window that only adds lines to what was printed, the
    lines not depending on what was printed before. *)
Definition only_prints {A} (m : M UI.Process A) : Prop :=
  ∀ win out,
    m (UI.run win out) =
      on_state (λ p, UI.run win (out ++ UI.stdout p)) (m (UI.run win [])).

(** What the button's slot prints for a window. *)
Definition printed (win : UI.t) : list string :=
  UI.stdout (final_state (UI.show_data_useage (UI.run win []))).

(** The exception, if any, the construction ends with. *)
Definition raised {S A} (o : Outcome S A) : option Exception :=
  match o with Returns _ _ => None | Raises e _ => Some e end.

(** What the construction reads of a dictionary: for every folder in
    order, and every nested list in order, the four values of the dict at
    index 0, or nothing when the nested list is empty. *)
Definition read_part (data : Data) : list (list (option (list (option string)))) :=
  (λ kv : string * list (list FileInfo),
     (λ val : list FileInfo, values <$> head val) <$> kv.2) <$> data.

(** ** The monad's equations *)

Section monad.
Context {S : Type}.

Lemma bind_returns {A B} (m : M S A) (f : A → M S B) s a s' :
  m s = Returns a s' → (m ≫= f) s = f a s'.
Proof. unfold mbind, M_bind. by intros ->. Qed.

Lemma bind_raises {A B} (m : M S A) (f : A → M S B) s e s' :
  m s = Raises e s' → (m ≫= f) s = Raises e s'.
Proof. unfold mbind, M_bind. by intros ->. Qed.

Lemma bind_returned {A B} (m : M S A) (f : A → M S B) s :
  returned ((m ≫= f) s) = true →
  ∃ a s', m s = Returns a s' ∧ returned (f a s') = true.
Proof.
  unfold mbind, M_bind. destruct (m s) as [a s'|e s']; [eauto | done].
Qed.
End monad.

(** ** Item construction *)

Section item.
Import CustomTreeItem CustomTreeWidget.

Lemma getattr_setattr a l i : getattr a (setattr a l i) = Some l.
Proof. by destruct a. Qed.

Lemma setattr_setattr a l l' i : setattr a l (setattr a l' i) = setattr a l i.
Proof. by destruct a. Qed.

Lemma has_key_true name a :
  has_key name a = true → name !! key_of a = Some (value name a).
Proof.
  unfold has_key, value. by destruct (name !! key_of a).
Qed.

Lemma has_key_false name a :
  has_key name a = false → name !! key_of a = None.
Proof.
  unfold has_key. by destruct (name !! key_of a).
Qed.

Lemma complete_keys name :
  complete name = true ↔ ∀ a, has_key name a = true.
Proof.
  unfold complete. rewrite !andb_true_iff. split.
  - intros [[[? ?] ?] ?] []; done.
  - intros H. repeat split; apply H.
Qed.

Lemma settable_true name a :
  settable name a = true →
  name !! key_of a = Some (value name a) ∧ has_nul (value name a) = false.
Proof.
  unfold settable, value. destruct (name !! key_of a) as [v|]; [|done].
  simpl. by intros ?%negb_true_iff.
Qed.

Lemma settable_has_key name a : settable name a = true → has_key name a = true.
Proof. unfold settable, has_key. by destruct (name !! key_of a). Qed.

Lemma accepted_keys name :
  accepted name = true ↔ ∀ a, settable name a = true.
Proof.
  unfold accepted. rewrite !andb_true_iff. split.
  - intros [[[? ?] ?] ?] []; done.
  - intros H. repeat split; apply H.
Qed.

Lemma accepted_complete name : accepted name = true → complete name = true.
Proof.
  rewrite accepted_keys, complete_keys. intros H a. apply settable_has_key, H.
Qed.

Lemma column_error_none name a : column_error name a = None ↔ settable name a = true.
Proof.
  unfold column_error, settable. destruct (name !! key_of a) as [v|]; [|done].
  by destruct (has_nul v).
Qed.

Lemma init_error_none name : init_error name = None ↔ accepted name = true.
Proof.
  rewrite accepted_keys. unfold init_error. split.
  - intros H a.
    destruct (column_error name sequence) eqn:H1; [done|].
    destruct (column_error name shot) eqn:H2; [done|].
    destruct (column_error name version) eqn:H3; [done|].
    destruct a; by apply column_error_none.
  - intros H. by rewrite !(proj2 (column_error_none name _) (H _)).
Qed.

(** A column block whose key is present with a text free of NUL sets the
    attribute and the column's widget to a label with the dict's text. *)
Lemma build_column_ok self a name w i :
  items w !! self = Some i →
  settable name a = true →
  build_column self a name w =
    Returns ()
      (with_itemWidgets (insert (self, column a) (label name a))
         (with_items (alter (setattr a (label name a)) self) w)).
Proof.
  intros Hi [Hk Hn]%settable_true.
  unfold build_column, assign, read, dict_getitem, setText, setItemWidget, modify,
    mbind, M_bind, mret, M_ret; simpl.
  rewrite list_lookup_alter_eq, Hi; simpl.
  rewrite getattr_setattr, Hk; simpl. rewrite Hn; simpl.
  rewrite list_alter_alter_eq, list_lookup_alter_eq, Hi; simpl.
  rewrite getattr_setattr.
  unfold with_itemWidgets, with_items, label; simpl.
  do 2 f_equal. rewrite list_alter_alter_eq. apply list_alter_ext; [|done].
  intros x _; simpl. apply setattr_setattr.
Qed.

(** A column block whose key is absent raises [KeyError] for that key, and
    one whose text holds a NUL raises [ValueError]; either way the
    attribute is left holding the empty label just made. *)
Lemma build_column_error self a name w i e :
  items w !! self = Some i →
  column_error name a = Some e →
  build_column self a name w =
    Raises e (with_items (alter (setattr a QLabel_new) self) w).
Proof.
  intros Hi He. unfold column_error in He.
  unfold build_column, assign, read, dict_getitem, setText, raise, modify,
    mbind, M_bind, mret, M_ret; simpl.
  rewrite list_lookup_alter_eq, Hi; simpl. rewrite getattr_setattr.
  destruct (name !! key_of a) as [v|]; [|by injection He as <-].
  destruct (has_nul v); [|done]. by injection He as <-.
Qed.

Lemma base_init parent w :
  QTreeWidgetItem__init__ parent w =
    Returns (length (items w)) (attach parent (blank parent) w).
Proof. by destruct parent. Qed.

Lemma attach_items parent it w :
  ∃ l, items (attach parent it w) = l ++ [it] ∧ length l = length (items w).
Proof.
  destruct parent as [|p]; simpl.
  - by exists (items w).
  - exists (alter (addChild (length (items w))) p (items w)).
    by rewrite length_alter.
Qed.

Lemma attach_lookup parent it w :
  items (attach parent it w) !! length (items w) = Some it.
Proof.
  destruct (attach_items parent it w) as (l & -> & <-).
  by rewrite list_lookup_middle.
Qed.

Lemma attach_alter f parent it w :
  with_items (alter f (length (items w))) (attach parent it w)
  = attach parent (f it) w.
Proof.
  destruct parent as [|p]; unfold attach, with_items, addTopLevelItem; simpl;
    f_equal.
  - replace (length (items w)) with (length (items w) + 0) at 1 by lia.
    by rewrite alter_app_r.
  - rewrite <- (length_alter (addChild (length (items w))) (items w) p) at 1.
    replace (length (alter (addChild (length (items w))) p (items w)))
      with (length (alter (addChild (length (items w))) p (items w)) + 0) by lia.
    by rewrite alter_app_r.
Qed.
End item.

Section item_init.
Import CustomTreeItem CustomTreeWidget.

Lemma with_itemWidgets_id w : with_itemWidgets (λ iw, iw) w = w.
Proof. by destruct w. Qed.

Lemma column_step parent it w f a name :
  settable name a = true →
  build_column (length (items w)) a name (with_itemWidgets f (attach parent it w)) =
    Returns ()
      (with_itemWidgets (λ iw, <[(length (items w), column a) := label name a]> (f iw))
         (attach parent (setattr a (label name a) it) w)).
Proof.
  intros Hk.
  erewrite build_column_ok; [|apply attach_lookup|done].
  by rewrite <- attach_alter.
Qed.

Lemma column_step_error parent it w f a name e :
  column_error name a = Some e →
  build_column (length (items w)) a name (with_itemWidgets f (attach parent it w)) =
    Raises e (with_itemWidgets f (attach parent (setattr a QLabel_new it) w)).
Proof.
  intros Hk.
  erewrite build_column_error; [|apply attach_lookup|done].
  by rewrite <- attach_alter.
Qed.

(** With the four keys present and their texts free of NUL, [__init__]
    returns the new item's index and leaves the item, its labels and its
    column widgets in place. *)
Lemma item_init_ok name parent w :
  accepted name = true →
  CustomTreeItem__init__ name parent w =
    Returns (length (items w)) (place parent name w).
Proof.
  rewrite accepted_keys. intros Hk.
  unfold CustomTreeItem__init__.
  rewrite (bind_returns _ _ _ _ _ (base_init parent w)).
  rewrite <- (with_itemWidgets_id (attach parent (blank parent) w)).
  do 4 (erewrite bind_returns; [|by apply column_step]).
  done.
Qed.

(** Otherwise [__init__] raises the exception of the first column block,
    in the order Sequence, Shot, Version, Location, that raises. *)
Lemma item_init_error name parent w e :
  init_error name = Some e →
  ∃ w', CustomTreeItem__init__ name parent w = Raises e w'.
Proof.
  intros He. unfold CustomTreeItem__init__.
  rewrite (bind_returns _ _ _ _ _ (base_init parent w)).
  rewrite <- (with_itemWidgets_id (attach parent (blank parent) w)).
  unfold init_error in He.
  destruct (column_error name sequence) as [e1|] eqn:H1;
    [injection He as <-; eexists;
      erewrite bind_raises; [done|by apply column_step_error]|].
  apply column_error_none in H1.
  erewrite bind_returns; [|by apply column_step].
  destruct (column_error name shot) as [e2|] eqn:H2;
    [injection He as <-; eexists;
      erewrite bind_raises; [done|by apply column_step_error]|].
  apply column_error_none in H2.
  erewrite bind_returns; [|by apply column_step].
  destruct (column_error name version) as [e3|] eqn:H3;
    [injection He as <-; eexists;
      erewrite bind_raises; [done|by apply column_step_error]|].
  apply column_error_none in H3.
  erewrite bind_returns; [|by apply column_step].
  eexists. erewrite bind_raises; [done|by apply column_step_error].
Qed.

Lemma item_init_refused name parent w :
  accepted name = false →
  ∃ e w', init_error name = Some e
          ∧ CustomTreeItem__init__ name parent w = Raises e w'.
Proof.
  intros Hc. destruct (init_error name) as [e|] eqn:He.
  - destruct (item_init_error name parent w e He) as [w' Hw']. by exists e, w'.
  - apply init_error_none in He. congruence.
Qed.
End item_init.

(** ** The loops on usable input *)

Section loops.
Import CustomTreeItem CustomTreeWidget.

Lemma usable_head val :
  usable val = true → ∃ name, head val = Some name ∧ accepted name = true.
Proof. destruct val as [|name ?]; [done|]. simpl. eauto. Qed.

Lemma for_val_under_item vals t w :
  forallb usable vals = true →
  for_val vals (AnItem t) w =
    Returns (AnItem t) (foldl (λ w' nm, place (AnItem t) nm w') w (omap head vals)).
Proof.
  revert w. induction vals as [|val vals IH]; intros w; simpl; [done|].
  rewrite andb_true_iff. intros [Hv Hvs].
  destruct val as [|name more]; [done|]. simpl in *.
  erewrite bind_returns; [|reflexivity].
  erewrite bind_returns; [|by apply item_init_ok].
  by apply IH.
Qed.

Lemma for_val_under_widget vals w :
  forallb usable vals = true →
  for_val vals TheWidget w =
    Returns (match omap head vals with
             | [] => TheWidget
             | _ :: _ => AnItem (length (items w))
             end)
            (place_folder (omap head vals) w).
Proof.
  destruct vals as [|val vals]; simpl; [done|].
  rewrite andb_true_iff. intros [Hv Hvs].
  destruct val as [|name more]; [done|]. simpl in *.
  erewrite bind_returns; [|reflexivity].
  erewrite bind_returns; [|by apply item_init_ok].
  simpl. by apply for_val_under_item.
Qed.

Lemma forallb_rev {A} (p : A → bool) l : forallb p (rev l) = forallb p l.
Proof.
  induction l as [|x l IH]; simpl; [done|].
  rewrite forallb_app, IH. simpl. rewrite andb_true_r. apply andb_comm.
Qed.

Lemma for_key_body_ok value w :
  forallb usable value = true →
  for_key_body value w = Returns () (place_folder (newest_first value) w).
Proof.
  intros Hv. unfold for_key_body.
  erewrite bind_returns; [done|].
  apply for_val_under_widget. by rewrite forallb_rev.
Qed.

Lemma for_key_ok data w :
  well_formed data = true →
  for_key data w = Returns () (place_all data w).
Proof.
  revert w. induction data as [|[key value] data IH]; intros w; simpl; [done|].
  rewrite andb_true_iff. intros [Hv Hd].
  erewrite bind_returns; [|by apply for_key_body_ok].
  by apply IH.
Qed.

Lemma resize_columns_id n w : resize_columns n w = Returns () w.
Proof. induction n as [|n IH]; simpl; [done|]. exact IH. Qed.

Lemma init_unfold data :
  CustomTreeWidget__init__ data =
    match for_key data (prepared data) with
    | Returns _ w => Returns () w
    | Raises e w => Raises e w
    end.
Proof.
  unfold CustomTreeWidget__init__, mbind, M_bind, gets, setColumnCount,
    setHeaderLabels, modify; simpl.
  unfold headers. fold (prepared data).
  destruct (for_key data (prepared data)) as [[] w|e w]; [|done].
  apply resize_columns_id.
Qed.

Lemma init_ok data :
  well_formed data = true →
  CustomTreeWidget__init__ data = Returns () (place_all data (prepared data)).
Proof.
  intros Hd. rewrite init_unfold. by rewrite for_key_ok.
Qed.
End loops.

(** ** The built state, field by field *)

Section built_state.
Import CustomTreeItem CustomTreeWidget.

Lemma adopt_nil i : adopt [] i = i.
Proof. destruct i. unfold adopt; simpl. by rewrite app_nil_r. Qed.

Lemma adopt_addChild n k i :
  adopt (seq (S n) k) (addChild n i) = adopt (seq n (S k)) i.
Proof. unfold adopt, addChild; simpl. by rewrite <- app_assoc. Qed.

Lemma adopt_created p kids name :
  adopt kids (created p [] name) = created p kids name.
Proof. done. Qed.

Lemma install_from_app n l1 l2 iw :
  install_from n (l1 ++ l2) iw =
    install_from (n + length l1) l2 (install_from n l1 iw).
Proof.
  revert n iw. induction l1 as [|x l1 IH]; intros n iw; simpl.
  - by rewrite Nat.add_0_r.
  - rewrite IH. f_equal. lia.
Qed.

Lemma length_folder_items n names : length (folder_items n names) = length names.
Proof. destruct names; simpl; [done|]. by rewrite length_fmap. Qed.

Lemma length_layout n data : length (layout n data) = length (all_names data).
Proof.
  revert n. induction data as [|kv data IH]; intros n; simpl; [done|].
  by rewrite !length_app, length_folder_items, IH.
Qed.

(** The items added under an item [t] that is already in the tree. *)
Lemma fold_under_item t rest w :
  t < length (items w) →
  let w' := foldl (λ w' nm, place (AnItem t) nm w') w rest in
  items w' =
    alter (adopt (seq (length (items w)) (length rest))) t (items w)
      ++ (created (AnItem t) [] <$> rest)
  ∧ topLevelItems w' = topLevelItems w
  ∧ itemWidgets w' = install_from (length (items w)) rest (itemWidgets w).
Proof.
  revert w. induction rest as [|nm rest IH]; intros w Ht; simpl.
  - split; [|done]. rewrite app_nil_r.
    symmetry. apply list_alter_id, adopt_nil.
  - destruct (IH (place (AnItem t) nm w)) as (Hi & Htop & Hw).
    { simpl. rewrite length_app, length_alter. lia. }
    split; [|split].
    + rewrite Hi. simpl.
      rewrite length_app, length_alter, Nat.add_1_r.
      rewrite alter_app_l by (rewrite length_alter; lia).
      rewrite list_alter_alter_eq, <- app_assoc. simpl.
      f_equal. apply list_alter_ext; [|done].
      intros i _. simpl. apply adopt_addChild.
    + by rewrite Htop.
    + rewrite Hw. simpl. by rewrite length_app, length_alter, Nat.add_1_r.
Qed.

Lemma place_folder_state names w :
  let w' := place_folder names w in
  items w' = items w ++ folder_items (length (items w)) names
  ∧ topLevelItems w' =
      topLevelItems w ++ match names with [] => [] | _ :: _ => [length (items w)] end
  ∧ itemWidgets w' = install_from (length (items w)) names (itemWidgets w).
Proof.
  destruct names as [|name rest]; simpl.
  - by rewrite !app_nil_r.
  - destruct (fold_under_item (length (items w)) rest (place TheWidget name w))
      as (Hi & Htop & Hw).
    { simpl. rewrite length_app. simpl. lia. }
    split; [|split].
    + rewrite Hi. simpl. rewrite length_app, Nat.add_1_r. simpl.
      rewrite alter_app_r_alt, Nat.sub_diag, <- app_assoc by lia.
      done.
    + by rewrite Htop.
    + rewrite Hw. simpl. by rewrite length_app, Nat.add_1_r.
Qed.

Lemma place_all_state data w :
  let w' := place_all data w in
  items w' = items w ++ layout (length (items w)) data
  ∧ topLevelItems w' = topLevelItems w ++ tops (length (items w)) data
  ∧ itemWidgets w' = install_from (length (items w)) (all_names data) (itemWidgets w).
Proof.
  revert w. induction data as [|[key value] data IH]; intros w; simpl.
  - by rewrite !app_nil_r.
  - destruct (place_folder_state (newest_first value) w) as (Hi & Htop & Hw).
    destruct (IH (place_folder (newest_first value) w)) as (Hi' & Htop' & Hw').
    unfold place_all in *. simpl.
    rewrite Hi', Htop', Hw', Hi, Htop, Hw.
    rewrite !length_app, length_folder_items, <- !app_assoc.
    by rewrite install_from_app.
Qed.

(** The tree a usable dictionary yields. *)
Lemma init_state data w :
  CustomTreeWidget__init__ data = Returns () w →
  well_formed data = true →
  items w = layout 0 data
  ∧ topLevelItems w = tops 0 data
  ∧ itemWidgets w = install_from 0 (all_names data) ∅.
Proof.
  intros Hw Hd. rewrite (init_ok _ Hd) in Hw. injection Hw as <-.
  apply (place_all_state data (prepared data)).
Qed.
End built_state.

(** ** Where each item sits *)

Section positions.
Import CustomTreeItem CustomTreeWidget.

Lemma all_names_app d1 d2 : all_names (d1 ++ d2) = all_names d1 ++ all_names d2.
Proof. apply flat_map_app. Qed.

Lemma layout_app n d1 d2 :
  layout n (d1 ++ d2) = layout n d1 ++ layout (n + length (all_names d1)) d2.
Proof.
  revert n. induction d1 as [|kv d1 IH]; intros n; simpl.
  - by rewrite Nat.add_0_r.
  - rewrite IH, <- app_assoc, length_app. do 3 f_equal. lia.
Qed.

Lemma tops_app n d1 d2 :
  tops n (d1 ++ d2) = tops n d1 ++ tops (n + length (all_names d1)) d2.
Proof.
  revert n. induction d1 as [|kv d1 IH]; intros n; simpl.
  - by rewrite Nat.add_0_r.
  - rewrite IH, <- app_assoc, length_app. do 3 f_equal. lia.
Qed.

Lemma tops_bounds n data id :
  id ∈ tops n data → n ≤ id < n + length (all_names data).
Proof.
  revert n. induction data as [|kv data IH]; intros n; simpl.
  - by intros ?%elem_of_nil.
  - rewrite length_app, elem_of_app. intros [Hin|Hin].
    + destruct (newest_first kv.2); [by apply elem_of_nil in Hin|].
      apply list_elem_of_singleton in Hin as ->. simpl. lia.
    + apply IH in Hin. lia.
Qed.

Lemma item_fields_created p kids name : item_fields (created p kids name) = texts name.
Proof. done. Qed.

Lemma item_fields_folder n names : item_fields <$> folder_items n names = texts <$> names.
Proof.
  destruct names as [|name rest]; simpl; [done|].
  f_equal. rewrite <- list_fmap_compose. by apply list_fmap_ext.
Qed.

Lemma item_fields_layout n data : item_fields <$> layout n data = texts <$> all_names data.
Proof.
  revert n. induction data as [|kv data IH]; intros n; simpl; [done|].
  by rewrite !fmap_app, item_fields_folder, IH.
Qed.

Lemma texts_values name : complete name = true → texts name = values name.
Proof.
  rewrite complete_keys. intros Hk. unfold texts, values. cbn [map].
  by rewrite !(has_key_true name) by apply Hk.
Qed.

Lemma fields_item w id i : items w !! id = Some i → fields w id = item_fields i.
Proof. unfold fields, item_of. by intros ->. Qed.

Lemma fields_seq w :
  fields w <$> seq 0 (length (items w)) = item_fields <$> items w.
Proof.
  apply list_eq. intros i. rewrite !list_lookup_fmap.
  destruct (items w !! i) as [it|] eqn:Hi; simpl.
  - rewrite lookup_seq_lt by (by eapply lookup_lt_Some). simpl.
    f_equal. by apply fields_item.
  - rewrite lookup_seq_ge; [done|]. by apply lookup_ge_None.
Qed.

Lemma install_other n name iw id c :
  id ≠ n → install n name iw !! (id, c) = iw !! (id, c).
Proof.
  intros Hne. unfold install.
  rewrite !lookup_insert_ne by congruence. done.
Qed.

Lemma install_same n name iw a :
  install n name iw !! (n, column a) = Some (label name a).
Proof.
  unfold install. destruct a; simpl;
    repeat first [ by rewrite lookup_insert_eq
                 | rewrite lookup_insert_ne by congruence ].
Qed.

Lemma install_from_before n names iw id c :
  id < n → install_from n names iw !! (id, c) = iw !! (id, c).
Proof.
  revert n iw. induction names as [|nm names IH]; intros n iw Hlt; simpl; [done|].
  rewrite IH by lia. apply install_other. lia.
Qed.

Lemma install_from_lookup n names iw j name a :
  names !! j = Some name →
  install_from n names iw !! (n + j, column a) = Some (label name a).
Proof.
  revert n iw j. induction names as [|nm names IH]; intros n iw j Hj; [done|].
  destruct j as [|j]; simpl in *.
  - injection Hj as ->. rewrite Nat.add_0_r, install_from_before by lia.
    apply install_same.
  - replace (n + S j) with (S n + j) by lia. by apply IH.
Qed.

Lemma shown_installed w n names iw j name :
  itemWidgets w = install_from n names iw →
  names !! j = Some name →
  shown w (n + j) = texts name.
Proof.
  intros H Hj. unfold shown, texts. cbn [map]. rewrite H.
  by rewrite !(install_from_lookup _ _ _ _ _ _ Hj).
Qed.
End positions.

(** ** The rows of the view *)

Section view.
Import CustomTreeItem CustomTreeWidget.

Lemma children_item w id i : items w !! id = Some i → children_of w id = childItems i.
Proof. unfold children_of, item_of. by intros ->. Qed.

Lemma flat_map_single {A} (g : A → list A) l :
  (∀ x, x ∈ l → g x = [x]) → flat_map g l = l.
Proof.
  induction l as [|x l IH]; intros Hg; simpl; [done|].
  rewrite Hg by apply list_elem_of_here. simpl. f_equal.
  apply IH. intros y Hy. apply Hg. by apply list_elem_of_further.
Qed.

(** An item whose children are the [k] childless items made after it
    takes [k + 1] consecutive rows. *)
Lemma rows_from_folder w fuel t k :
  children_of w t = seq (S t) k →
  (∀ c, S t ≤ c < S t + k → children_of w c = []) →
  k < fuel →
  rows_from fuel w t = seq t (S k).
Proof.
  intros Ht Hc Hf. destruct fuel as [|fuel]; [lia|].
  simpl. f_equal. rewrite Ht.
  destruct k as [|k]; [done|].
  destruct fuel as [|fuel]; [lia|].
  apply flat_map_single. intros c Hin.
  apply elem_of_seq in Hin. simpl. by rewrite Hc by lia.
Qed.

Lemma rows_of_tops data : ∀ (n : nat) (w : Widget) (fuel : nat),
  (∀ j i, layout n data !! j = Some i → items w !! (n + j) = Some i) →
  length (all_names data) ≤ fuel →
  flat_map (rows_from fuel w) (tops n data) = seq n (length (all_names data)).
Proof.
  induction data as [|[key value] data IH]; intros n w fuel Hl Hf; [done|].
  simpl in *. rewrite length_app in *.
  rewrite flat_map_app, seq_app.
  rewrite (IH (n + length (newest_first value)) w fuel); [|idtac|lia].
  - f_equal. destruct (newest_first value) as [|name rest]; [done|].
    simpl. rewrite app_nil_r. apply rows_from_folder.
    + assert (items w !! n = Some (created TheWidget (seq (S n) (length rest)) name))
        as Hn by (rewrite <- (Nat.add_0_r n) at 1; by apply Hl).
      by rewrite (children_item _ _ _ Hn).
    + intros c Hc. simpl in Hf.
      destruct (lookup_lt_is_Some_2 rest (c - S n)) as [nm Hnm]; [lia|].
      assert (items w !! c = Some (created (AnItem n) [] nm)) as Hc'.
      { replace c with (n + S (c - S n)) at 1 by lia. apply Hl. simpl.
        rewrite lookup_app_l by (rewrite length_fmap; by eapply lookup_lt_Some).
        by rewrite list_lookup_fmap, Hnm. }
      by rewrite (children_item _ _ _ Hc').
    + simpl in Hf. lia.
  - intros j i Hj. rewrite <- Nat.add_assoc. apply Hl.
    rewrite lookup_app_r by (rewrite length_folder_items; lia).
    rewrite length_folder_items.
    by replace (length (newest_first value) + j - length (newest_first value))
      with j by lia.
Qed.

(** Read top to bottom, the rows of the built tree are its items in
    creation order. *)
Lemma rows_built data w :
  items w = layout 0 data →
  topLevelItems w = tops 0 data →
  rows w = seq 0 (length (items w)).
Proof.
  intros Hi Ht. unfold rows. rewrite Ht, Hi, length_layout.
  apply rows_of_tops; [|done].
  intros j i Hj. by rewrite Hi.
Qed.
End view.

(** ** Usable input, list by list *)

Section usable_input.

Lemma omap_rev {A B} (f : A → option B) l : omap f (rev l) = rev (omap f l).
Proof.
  induction l as [|x l IH]; simpl; [done|].
  rewrite omap_app, IH. simpl. destruct (f x); simpl; [done|apply app_nil_r].
Qed.

Lemma usable_names value :
  forallb usable value = true →
  length (omap head value) = length value
  ∧ Forall (λ name, complete name = true) (omap head value).
Proof.
  induction value as [|val value IH]; simpl; [done|].
  rewrite andb_true_iff. intros [Hv Hvs].
  destruct (usable_head _ Hv) as (name & -> & Hc%accepted_complete).
  destruct (IH Hvs) as [Hlen Hall]. simpl. split; [by f_equal|].
  by constructor.
Qed.

Lemma newest_first_rev value : newest_first value = rev (omap head value).
Proof. apply omap_rev. Qed.

Lemma length_newest_first value :
  forallb usable value = true → length (newest_first value) = length value.
Proof.
  intros Hv. rewrite newest_first_rev, length_rev. by apply usable_names.
Qed.

Lemma complete_newest_first value :
  forallb usable value = true →
  Forall (λ name, complete name = true) (newest_first value).
Proof.
  intros Hv. rewrite newest_first_rev.
  apply List.Forall_rev. by apply usable_names.
Qed.

Lemma complete_all_names data :
  well_formed data = true →
  Forall (λ name, complete name = true) (all_names data).
Proof.
  induction data as [|[key value] data IH]; simpl; [constructor|].
  rewrite andb_true_iff. intros [Hv Hd].
  apply Forall_app. split; [by apply complete_newest_first | by apply IH].
Qed.

Lemma well_formed_app d1 d2 :
  well_formed (d1 ++ d2) = true ↔ well_formed d1 = true ∧ well_formed d2 = true.
Proof. unfold well_formed. by rewrite forallb_app, andb_true_iff. Qed.

Lemma texts_values_all names :
  Forall (λ name, complete name = true) names → texts <$> names = values <$> names.
Proof.
  intros Hall. apply list_fmap_ext. intros i name Hi.
  apply texts_values. rewrite Forall_forall in Hall.
  apply Hall. by eapply list_elem_of_lookup_2.
Qed.
End usable_input.

(** ** Input that is not usable makes the loops raise *)

Section raising.
Import CustomTreeItem CustomTreeWidget.

Lemma for_val_returned vals : ∀ header w,
  returned (for_val vals header w) = true → forallb usable vals = true.
Proof.
  induction vals as [|val vals IH]; intros header w Hr; [done|].
  simpl in *. destruct val as [|name more].
  { by rewrite (bind_raises _ _ _ IndexError w) in Hr. }
  erewrite bind_returns in Hr; [|reflexivity].
  simpl. destruct (accepted name) eqn:Hc; simpl.
  - erewrite bind_returns in Hr; [|by apply item_init_ok].
    by eapply IH.
  - destruct (item_init_refused name header w Hc) as (e & w' & _ & Hi).
    by rewrite (bind_raises _ _ _ _ _ Hi) in Hr.
Qed.

Lemma for_key_returned data : ∀ w,
  returned (for_key data w) = true → well_formed data = true.
Proof.
  induction data as [|[key value] data IH]; intros w Hr; [done|].
  simpl in *. apply bind_returned in Hr as ([] & w' & Hb & Hr).
  apply andb_true_iff. split; [|by eapply IH].
  unfold for_key_body in Hb.
  assert (returned (for_val (rev value) TheWidget w) = true) as Hv.
  { unfold mbind, M_bind in Hb.
    by destruct (for_val (rev value) TheWidget w). }
  apply for_val_returned in Hv. by rewrite forallb_rev in Hv.
Qed.

Lemma init_returned data :
  returned (CustomTreeWidget__init__ data) = true → well_formed data = true.
Proof.
  rewrite init_unfold. intros Hr. apply (for_key_returned data (prepared data)).
  by destruct (for_key data (prepared data)).
Qed.

Lemma init_returns_iff data :
  (∃ w, CustomTreeWidget__init__ data = Returns () w) ↔ well_formed data = true.
Proof.
  split.
  - intros [w Hw]. apply init_returned. by rewrite Hw.
  - intros Hd. eexists. by apply init_ok.
Qed.
End raising.

(** ** Nothing the construction runs assigns [_data] again *)

Section data_kept.
Import CustomTreeItem CustomTreeWidget.

Lemma keeps_ret {A} (a : A) : keeps (mret a).
Proof. by intros w. Qed.

Lemma keeps_raise {A} e : keeps (raise e : M Widget A).
Proof. by intros w. Qed.

Lemma keeps_gets {A} (f : Widget → A) : keeps (gets f).
Proof. by intros w. Qed.

Lemma keeps_modify f : (∀ w, _data (f w) = _data w) → keeps (modify f).
Proof. intros Hf w. apply Hf. Qed.

Lemma keeps_bind {A B} (m : M Widget A) (f : A → M Widget B) :
  keeps m → (∀ a, keeps (f a)) → keeps (m ≫= f).
Proof.
  intros Hm Hf w. specialize (Hm w). unfold mbind, M_bind.
  destruct (m w) as [a w'|e w']; simpl in *; [|done].
  by rewrite Hf.
Qed.

Lemma keeps_read self a : keeps (read self a).
Proof.
  intros w. unfold read.
  destruct (items w !! self) as [i|]; [|done].
  by destruct (getattr a i).
Qed.

Lemma keeps_build_column self a name : keeps (build_column self a name).
Proof.
  unfold build_column.
  repeat first
    [ apply keeps_bind; [|intros ?]
    | apply keeps_read
    | by apply keeps_modify
    | unfold dict_getitem; destruct (name !! key_of a);
      [apply keeps_ret | apply keeps_raise]
    | unfold setText; match goal with |- context [has_nul ?v] => destruct (has_nul v) end;
      [apply keeps_raise | apply keeps_ret] ].
Qed.

Lemma keeps_base_init parent : keeps (QTreeWidgetItem__init__ parent).
Proof. intros w. by destruct parent. Qed.

Lemma keeps_item_init name parent : keeps (CustomTreeItem__init__ name parent).
Proof.
  unfold CustomTreeItem__init__.
  repeat first
    [ apply keeps_build_column
    | apply keeps_base_init
    | apply keeps_ret
    | apply keeps_bind; [|intros ?] ].
Qed.

Lemma keeps_for_val vals : ∀ header, keeps (for_val vals header).
Proof.
  induction vals as [|val vals IH]; intros header; simpl; [apply keeps_ret|].
  apply keeps_bind; [|intros name; apply keeps_bind; [|intros ?]].
  - destruct val; [apply keeps_raise | apply keeps_ret].
  - apply keeps_item_init.
  - apply IH.
Qed.

Lemma keeps_for_key data : keeps (for_key data).
Proof.
  induction data as [|[key value] data IH]; simpl; [apply keeps_ret|].
  apply keeps_bind; [|by intros ?].
  unfold for_key_body. apply keeps_bind; [apply keeps_for_val|].
  intros ?. apply keeps_ret.
Qed.

Lemma init_keeps_data data :
  _data (final_state (CustomTreeWidget__init__ data)) = data.
Proof.
  rewrite init_unfold.
  pose proof (keeps_for_key data (prepared data)) as Hk.
  by destruct (for_key data (prepared data)).
Qed.
End data_kept.

(** ** Each item and the dict it was made from *)

Section made_from.
Import CustomTreeItem CustomTreeWidget.

Lemma folder_items_lookup n names j i :
  folder_items n names !! j = Some i →
  ∃ par kids name, i = created par kids name ∧ names !! j = Some name.
Proof.
  destruct names as [|name rest]; [done|]. simpl.
  destruct j as [|j]; simpl.
  - intros [= <-]. by eexists _, _, _.
  - rewrite list_lookup_fmap. destruct (rest !! j) as [nm|]; [|done].
    intros [= <-]. by eexists _, _, _.
Qed.

Lemma layout_lookup data : ∀ n j i,
  layout n data !! j = Some i →
  ∃ par kids name, i = created par kids name ∧ all_names data !! j = Some name.
Proof.
  induction data as [|[key value] data IH]; intros n j i Hj; [done|].
  simpl in *. rewrite lookup_app in Hj. rewrite lookup_app.
  destruct (folder_items n (newest_first value) !! j) as [i'|] eqn:Hf.
  - injection Hj as ->.
    destruct (folder_items_lookup _ _ _ _ Hf) as (par & kids & name & -> & Hn).
    rewrite Hn. by eexists _, _, _.
  - apply lookup_ge_None in Hf. rewrite length_folder_items in *.
    rewrite (proj2 (lookup_ge_None _ _) Hf).
    by eapply IH.
Qed.

Lemma read_created w id par kids name a :
  items w !! id = Some (created par kids name) →
  read id a w = Returns (label name a) w.
Proof. unfold read. intros ->. by destruct a. Qed.
End made_from.

(** ** The button's slot *)

Section slot.
Import CustomTreeItem CustomTreeWidget UI.

Lemma attr_text_created p id par kids name a :
  items (treeWidget (window p)) !! id = Some (created par kids name) →
  attr_text id a p = Returns (value name a) p.
Proof.
  intros Hi. unfold attr_text. by rewrite (read_created _ _ _ _ _ _ Hi).
Qed.

Lemma for_selected_lines (names : list FileInfo) sel : ∀ p,
  (∀ id, id ∈ sel → ∃ par kids name,
      items (treeWidget (window p)) !! id = Some (created par kids name)
      ∧ names !! id = Some name) →
  for_selected sel p =
    Returns ()
      (run (window p)
           (stdout p ++ flat_map (λ id, from_option field_lines [] (names !! id)) sel)).
Proof.
  induction sel as [|id sel IH]; intros p Hsel; simpl.
  - rewrite app_nil_r. by destruct p.
  - destruct (Hsel id) as (par & kids & name & Hi & Hn); [apply list_elem_of_here|].
    rewrite Hn. simpl.
    do 4 (erewrite bind_returns; [|by eapply attr_text_created];
          erewrite bind_returns; [|reflexivity]).
    rewrite IH; simpl.
    + by rewrite <- !app_assoc.
    + intros id' Hid'. apply Hsel. by apply list_elem_of_further.
Qed.
End slot.

(** ** The built tree against the dictionary *)

Section against_data.
Import CustomTreeItem CustomTreeWidget.

Lemma fmap_rev {A B} (f : A → B) l : f <$> rev l = rev (f <$> l).
Proof.
  induction l as [|x l IH]; simpl; [done|]. by rewrite fmap_app, IH.
Qed.

Lemma values_first value :
  forallb usable value = true →
  values <$> omap head value = first_values <$> value.
Proof.
  induction value as [|val value IH]; simpl; [done|].
  rewrite andb_true_iff. intros [Hv Hvs].
  destruct val as [|name more]; [done|]. simpl. f_equal. by apply IH.
Qed.

Lemma values_newest_first value :
  forallb usable value = true →
  values <$> newest_first value = rev (first_values <$> value).
Proof.
  intros Hv. by rewrite newest_first_rev, fmap_rev, values_first.
Qed.

Lemma values_all_names data :
  well_formed data = true →
  values <$> all_names data = flat_map (λ kv, rev (first_values <$> kv.2)) data.
Proof.
  induction data as [|[key value] data IH]; simpl; [done|].
  rewrite andb_true_iff. intros [Hv Hd].
  by rewrite fmap_app, values_newest_first, IH.
Qed.

Lemma shown_seq w names :
  itemWidgets w = install_from 0 names ∅ →
  shown w <$> seq 0 (length names) = texts <$> names.
Proof.
  intros Hw. apply list_eq. intros j. rewrite !list_lookup_fmap.
  destruct (names !! j) as [name|] eqn:Hj; simpl.
  - rewrite lookup_seq_lt by (by eapply lookup_lt_Some). simpl.
    f_equal. by apply (shown_installed w 0 names ∅).
  - rewrite lookup_seq_ge; [done|]. by apply lookup_ge_None.
Qed.

Lemma filter_none {A} (P : A → Prop) `{∀ x, Decision (P x)} (l : list A) :
  (∀ x, x ∈ l → ¬ P x) → filter P l = [].
Proof.
  induction l as [|x l IH]; intros Hl; [done|].
  rewrite filter_cons_False by (apply Hl, list_elem_of_here).
  apply IH. intros y Hy. by apply Hl, list_elem_of_further.
Qed.

(** In the built tree, what the columns show and what the properties give
    back are the dicts' values, row by row in creation order. *)
Lemma built_rows data w :
  CustomTreeWidget__init__ data = Returns () w →
  rows w = seq 0 (length (all_names data))
  ∧ shown w <$> rows w = values <$> all_names data
  ∧ fields w <$> rows w = values <$> all_names data.
Proof.
  intros Hw.
  assert (well_formed data = true) as Hd
    by (apply init_returned; by rewrite Hw).
  destruct (init_state _ _ Hw Hd) as (Hi & Ht & Hiw).
  pose proof (rows_built _ _ Hi Ht) as Hr.
  pose proof (complete_all_names _ Hd) as Hc.
  assert (length (items w) = length (all_names data)) as Hlen
    by (by rewrite Hi, length_layout).
  rewrite Hr. split; [by rewrite Hlen|split].
  - rewrite Hlen, (shown_seq _ _ Hiw). by apply texts_values_all.
  - rewrite fields_seq, Hi, item_fields_layout. by apply texts_values_all.
Qed.
End against_data.

(** ** Nested lists longer than one element, and empty folders *)

Section trimming.
Import CustomTreeItem CustomTreeWidget.

Lemma for_val_first_only vals : ∀ header w,
  for_val (take 1 <$> vals) header w = for_val vals header w.
Proof.
  induction vals as [|val vals IH]; intros header w; [done|].
  cbn [fmap list_fmap for_val].
  destruct val as [|name more]; [done|].
  rewrite (bind_returns (list_getitem0 (take 1 (name :: more))) _ w name w eq_refl).
  rewrite (bind_returns (list_getitem0 (name :: more)) _ w name w eq_refl).
  unfold mbind, M_bind.
  destruct (CustomTreeItem__init__ name header w) as [self w'|e w']; [|done].
  apply IH.
Qed.

Lemma for_key_body_first_only value w :
  for_key_body (take 1 <$> value) w = for_key_body value w.
Proof.
  unfold for_key_body, mbind, M_bind.
  by rewrite <- fmap_rev, for_val_first_only.
Qed.

Lemma for_key_first_only data : ∀ w,
  for_key (first_only data) w = for_key data w.
Proof.
  induction data as [|[key value] data IH]; intros w; [done|].
  cbn [first_only fmap list_fmap for_key fst snd].
  unfold mbind, M_bind. rewrite for_key_body_first_only.
  destruct (for_key_body value w) as [[] w'|e w']; [|done].
  apply IH.
Qed.

Lemma for_key_empty_folder pre key post : ∀ w,
  for_key (pre ++ (key, []) :: post) w = for_key (pre ++ post) w.
Proof.
  induction pre as [|[k v] pre IH]; intros w; [done|].
  simpl. unfold mbind, M_bind.
  destruct (for_key_body v w) as [[] w'|e w']; [|done].
  apply IH.
Qed.

Lemma length_all_names data :
  well_formed data = true →
  length (all_names data) = length (flat_map snd data).
Proof.
  induction data as [|[key value] data IH]; simpl; [done|].
  rewrite andb_true_iff. intros [Hv Hd].
  by rewrite !length_app, length_newest_first, IH.
Qed.

Lemma well_formed_usable pre key before val after post :
  well_formed (pre ++ (key, before ++ val :: after) :: post) = true →
  usable val = true.
Proof.
  intros [_ Hd]%well_formed_app. simpl in Hd.
  apply andb_true_iff in Hd as [Hv _].
  rewrite forallb_app in Hv. apply andb_true_iff in Hv as [_ Hv].
  simpl in Hv. by apply andb_true_iff in Hv as [Hv _].
Qed.

Lemma newest_is_last value newest older :
  forallb usable value = true →
  newest_first value = newest :: older →
  ∃ val, last value = Some val ∧ head val = Some newest.
Proof.
  intros Hv. rewrite <- forallb_rev in Hv. unfold newest_first.
  destruct (rev value) as [|val vals] eqn:Hr; [done|].
  apply (f_equal (@rev _)) in Hr. rewrite rev_involutive in Hr. subst value.
  simpl in *. apply andb_true_iff in Hv as [Hval _].
  destruct (usable_head _ Hval) as (name & Hh & _). rewrite Hh.
  intros [= -> _]. exists val. by rewrite last_snoc.
Qed.

Lemma column_error_cases name a e :
  column_error name a = Some e →
  e = ValueError ∨ (e = KeyError (key_of a) ∧ name !! key_of a = None).
Proof.
  unfold column_error. destruct (name !! key_of a) as [v|].
  - destruct (has_nul v); [|done]. intros [= <-]. by left.
  - intros [= <-]. by right.
Qed.

Lemma init_error_cases name e :
  init_error name = Some e →
  e = ValueError ∨ ∃ a, e = KeyError (key_of a) ∧ name !! key_of a = None.
Proof.
  unfold init_error.
  destruct (column_error name sequence) as [e1|] eqn:H1;
    [intros [= <-]; destruct (column_error_cases _ _ _ H1) as [|[]]; eauto|].
  destruct (column_error name shot) as [e2|] eqn:H2;
    [intros [= <-]; destruct (column_error_cases _ _ _ H2) as [|[]]; eauto|].
  destruct (column_error name version) as [e3|] eqn:H3;
    [intros [= <-]; destruct (column_error_cases _ _ _ H3) as [|[]]; eauto|].
  intros H4. destruct (column_error_cases _ _ _ H4) as [|[]]; eauto.
Qed.

Lemma column_error_missing name a :
  name !! key_of a = None → column_error name a = Some (KeyError (key_of a)).
Proof. unfold column_error. by intros ->. Qed.

(** The first missing key is the one named when the keys before it hold
    texts the labels take. *)
Lemma init_error_first_missing name a :
  name !! key_of a = None →
  (∀ a', column a' < column a → settable name a' = true) →
  init_error name = Some (KeyError (key_of a)).
Proof.
  intros Hnone Hbefore. unfold init_error.
  destruct a; simpl in Hbefore;
    rewrite ?(proj2 (column_error_none name sequence) (Hbefore sequence ltac:(simpl; lia))),
            ?(proj2 (column_error_none name shot) (Hbefore shot ltac:(simpl; lia))),
            ?(proj2 (column_error_none name version) (Hbefore version ltac:(simpl; lia)));
    by rewrite (column_error_missing _ _ Hnone).
Qed.
End trimming.

(** * The claims *)

Section claims.
Import CustomTreeItem.

(** C1, as stated, fails.  For the dictionary with the one folder
    "/folderOne" holding one version, the claim asks for a top-level node
    that is a folder node and not a version node, with the folder's
    version shown by a child under it.  The only top-level item is the
    item made from the version itself, and it has no child. *)
Lemma C1_root_is_the_newest_version :
  let value := [[file "zzz999" "zzz_1234" "01" "/file/path"]] in
  let w := final_state (CustomTreeWidget__init__ [("/folderOne", value)]) in
  ¬ ∃ root, root ∈ CustomTreeWidget.topLevelItems w
            ∧ ¬ (fields w root ∈ first_values <$> value)
            ∧ fields w <$> children_of w root = rev (first_values <$> value).
Proof.
  intros value w (root & Hin & _ & Hkids).
  assert (CustomTreeWidget.topLevelItems w = [0]) as Htop by (vm_compute; reflexivity).
  rewrite Htop in Hin. apply list_elem_of_singleton in Hin as ->.
  assert (children_of w 0 = []) as Hnone by (vm_compute; reflexivity).
  rewrite Hnone in Hkids. discriminate Hkids.
Qed.

(** C1, amended: for every usable dictionary and every folder in it with
    a non-empty list, exactly one of the folder's items is a top-level
    item; it is the item made from the last element of the list, and every
    other item of the folder is a childless child of it.  The folder's
    items are those with creation index [b] to [b + length value - 1],
    [b] being the number of items made for the folders before it. *)
Theorem C1_one_root_per_folder pre key value post :
  well_formed (pre ++ (key, value) :: post) = true →
  value ≠ [] →
  ∃ w newest older,
    CustomTreeWidget__init__ (pre ++ (key, value) :: post) = Returns () w
    ∧ newest_first value = newest :: older
    ∧ (∃ val, last value = Some val ∧ head val = Some newest)
    ∧ length value = S (length older)
    ∧ let b := length (all_names pre) in
      filter (λ id, b ≤ id < b + length value) (CustomTreeWidget.topLevelItems w) = [b]
      ∧ item_of w b = Some (created TheWidget (seq (S b) (length older)) newest)
      ∧ ∀ j nm, older !! j = Some nm →
                item_of w (S b + j) = Some (created (AnItem b) [] nm).
Proof.
  intros Hd Hne.
  pose proof Hd as Hd'. apply well_formed_app in Hd' as [Hpre Hrest].
  simpl in Hrest. apply andb_true_iff in Hrest as [Hv Hpost].
  pose proof (length_newest_first _ Hv) as Hlen.
  destruct (newest_first value) as [|newest older] eqn:Hnf.
  { destruct value; [done|discriminate Hlen]. }
  simpl in Hlen.
  pose proof (init_ok _ Hd) as Hw.
  destruct (init_state _ _ Hw Hd) as (Hi & Ht & _).
  eexists _, newest, older. split; [exact Hw|].
  split; [done|]. split; [by apply (newest_is_last value newest older)|].
  split; [done|]. simpl.
  unfold item_of. rewrite Hi, Ht, layout_app, tops_app. simpl. rewrite Hnf.
  split; [|split].
  - rewrite !filter_app, filter_none, filter_cons_True, filter_nil, filter_none.
    + done.
    + intros id Hin%tops_bounds. simpl in Hin. lia.
    + lia.
    + intros id Hin%tops_bounds. lia.
  - rewrite lookup_app_r by (rewrite length_layout; lia).
    rewrite length_layout. by rewrite Nat.sub_diag.
  - intros j nm Hj.
    rewrite lookup_app_r by (rewrite length_layout; lia).
    rewrite length_layout.
    replace (S (length (all_names pre) + j) - length (all_names pre)) with (S j)
      by lia.
    simpl.
    rewrite lookup_app_l by (rewrite length_fmap; by eapply lookup_lt_Some).
    by rewrite list_lookup_fmap, Hj.
Qed.

Lemma C1_one_root_per_folder_witness :
  ∃ w newest older,
    CustomTreeWidget__init__ _data = Returns () w
    ∧ newest_first [ [file "zzz999" "zzz999_000" "01" "/file/path"];
                     [file "zzz999" "zzz999_000" "02" "/file/path"] ]
      = newest :: older
    ∧ (∃ val, last [ [file "zzz999" "zzz999_000" "01" "/file/path"];
                     [file "zzz999" "zzz999_000" "02" "/file/path"] ] = Some val
              ∧ head val = Some newest)
    ∧ 2 = S (length older)
    ∧ filter (λ id, 1 ≤ id < 1 + 2) (CustomTreeWidget.topLevelItems w) = [1]
    ∧ item_of w 1 = Some (created TheWidget (seq 2 (length older)) newest)
    ∧ ∀ j nm, older !! j = Some nm →
              item_of w (2 + j) = Some (created (AnItem 1) [] nm).
Proof.
  apply (C1_one_root_per_folder
           [("/folderOne", [[file "zzz999" "zzz_1234" "01" "/file/path"]])]
           "/folderTwo"
           [ [file "zzz999" "zzz999_000" "01" "/file/path"];
             [file "zzz999" "zzz999_000" "02" "/file/path"] ]
           [("/folderThree",
             [ [file "abc111" "abc111_5678" "01" "/file/path"];
               [file "abc111" "abc111_5678" "02" "/file/path"];
               [file "abc111" "abc111_5678" "03" "/file/path"];
               [file "abc111" "abc111_5678" "05" "/file/path"] ])]).
  - vm_compute. reflexivity.
  - discriminate.
Defined.

(** C2: for every usable dictionary and every folder in it, the rows of
    the view, read top to bottom, show the folder's versions in the
    reverse of their order in the folder's list.  The rows are the
    top-level items, each followed by its children; a folder's rows come
    after those of the folders before it and before those of the folders
    after it. *)
Theorem C2_rows_newest_first pre key value post :
  well_formed (pre ++ (key, value) :: post) = true →
  ∃ w, CustomTreeWidget__init__ (pre ++ (key, value) :: post) = Returns () w
       ∧ shown w <$> rows w =
           flat_map (λ kv, rev (first_values <$> kv.2)) pre
           ++ rev (first_values <$> value)
           ++ flat_map (λ kv, rev (first_values <$> kv.2)) post.
Proof.
  intros Hd. pose proof (init_ok _ Hd) as Hw.
  eexists. split; [exact Hw|].
  destruct (built_rows _ _ Hw) as (_ & -> & _).
  rewrite (values_all_names _ Hd), flat_map_app. done.
Qed.

Lemma C2_rows_newest_first_witness :
  ∃ w, CustomTreeWidget__init__ _data = Returns () w
       ∧ shown w <$> rows w =
           [ [Some "zzz999"; Some "zzz_1234"; Some "01"; Some "/file/path"];
             [Some "zzz999"; Some "zzz999_000"; Some "02"; Some "/file/path"];
             [Some "zzz999"; Some "zzz999_000"; Some "01"; Some "/file/path"];
             [Some "abc111"; Some "abc111_5678"; Some "05"; Some "/file/path"];
             [Some "abc111"; Some "abc111_5678"; Some "03"; Some "/file/path"];
             [Some "abc111"; Some "abc111_5678"; Some "02"; Some "/file/path"];
             [Some "abc111"; Some "abc111_5678"; Some "01"; Some "/file/path"] ].
Proof.
  apply (C2_rows_newest_first
           [("/folderOne", [[file "zzz999" "zzz_1234" "01" "/file/path"]])]
           "/folderTwo"
           [ [file "zzz999" "zzz999_000" "01" "/file/path"];
             [file "zzz999" "zzz999_000" "02" "/file/path"] ]
           [("/folderThree",
             [ [file "abc111" "abc111_5678" "01" "/file/path"];
               [file "abc111" "abc111_5678" "02" "/file/path"];
               [file "abc111" "abc111_5678" "03" "/file/path"];
               [file "abc111" "abc111_5678" "05" "/file/path"] ])]).
  vm_compute. reflexivity.
Defined.

(** C3, as stated, fails: in the tree built from the example dictionary
    the top-level items do not have 1, 2 and 4 children. *)
Lemma C3_example_child_counts_differ :
  child_counts (final_state (CustomTreeWidget__init__ _data)) ≠ [1; 2; 4].
Proof. vm_compute. discriminate. Qed.

(** C3, amended: the example dictionary yields exactly 3 top-level items,
    with 0, 1 and 3 children; the top-level item of "/folderThree" is the
    first of that folder's rows and has Version "05", and the first child
    under it has Version "03". *)
Theorem C3_example_tree :
  ∃ w, CustomTreeWidget__init__ _data = Returns () w
       ∧ CustomTreeWidget.topLevelItems w = [0; 1; 3]
       ∧ child_counts w = [0; 1; 3]
       ∧ rows w = [0; 1; 2; 3; 4; 5; 6]
       ∧ fields w 3 = [Some "abc111"; Some "abc111_5678"; Some "05"; Some "/file/path"]
       ∧ children_of w 3 = [4; 5; 6]
       ∧ fields w 4 = [Some "abc111"; Some "abc111_5678"; Some "03"; Some "/file/path"].
Proof.
  eexists. split; [by apply init_ok|].
  repeat split; vm_compute; reflexivity.
Qed.




(** C5: with a non-empty selection of items of the built tree, the
    button's slot prints, for every selected item in turn, exactly the
    four lines ">> Sequence: ", ">> Shot: ", ">> Version: " and
    ">> Location: ", each followed by the value the item's dict has for
    that key, and nothing else.  In the window, selecting the item made
    from {Sequence: zzz999, Shot: zzz_1234, Version: 01, Location:
    /file/path} prints those four lines with these four values. *)
Theorem C5_show_selection_lines data w sel btn out :
  CustomTreeWidget__init__ data = Returns () w →
  sel ≠ [] →
  Forall (λ id, id < length (CustomTreeWidget.items w)) sel →
  UI.show_data_useage (UI.run (UI.mk (CustomTreeWidget.select sel w) btn) out) =
    Returns ()
      (UI.run (UI.mk (CustomTreeWidget.select sel w) btn)
         (out ++ flat_map (λ id, from_option field_lines [] (all_names data !! id)) sel))
  ∧ (∀ id, id ∈ sel →
       ∃ name, all_names data !! id = Some name ∧ complete name = true
               ∧ ∀ a, name !! key_of a = Some (value name a))
  ∧ ∃ ui, UI.__init__ = inr ui
          ∧ all_names _data !! 0 = Some (file "zzz999" "zzz_1234" "01" "/file/path")
          ∧ UI.show_data_useage
              (UI.run (UI.mk (CustomTreeWidget.select [0] (UI.treeWidget ui))
                             (UI._show_data_useage_btn ui)) [])
            = Returns ()
                (UI.run (UI.mk (CustomTreeWidget.select [0] (UI.treeWidget ui))
                               (UI._show_data_useage_btn ui))
                   [ ">> Sequence: zzz999"; ">> Shot: zzz_1234";
                     ">> Version: 01"; ">> Location: /file/path" ]).
Proof.
  intros Hw Hne Hsel.
  assert (well_formed data = true) as Hd by (apply init_returned; by rewrite Hw).
  destruct (init_state _ _ Hw Hd) as (Hi & _ & _).
  assert (∀ id, id ∈ sel → ∃ par kids name,
            CustomTreeWidget.items w !! id = Some (created par kids name)
            ∧ all_names data !! id = Some name) as Hmade.
  { intros id Hid. rewrite Forall_forall in Hsel. apply Hsel in Hid.
    destruct (lookup_lt_is_Some_2 _ _ Hid) as [i Hlook].
    pose proof Hlook as Hlook'. rewrite Hi in Hlook'.
    destruct (layout_lookup _ _ _ _ Hlook') as (par & kids & name & -> & Hn).
    by eexists _, _, _. }
  split; [|split].
  - unfold UI.show_data_useage.
    erewrite bind_returns; [|reflexivity]. simpl.
    destruct sel as [|id sel]; [done|].
    by rewrite (for_selected_lines (all_names data)).
  - intros id Hid. destruct (Hmade id Hid) as (_ & _ & name & _ & Hn).
    exists name. split; [done|].
    pose proof (complete_all_names _ Hd) as Hall.
    rewrite Forall_forall in Hall.
    assert (complete name = true) as Hc
      by (apply Hall; by eapply list_elem_of_lookup_2).
    split; [done|]. intros a. apply has_key_true. by apply complete_keys.
  - eexists. split; [|split].
    + unfold UI.__init__. by rewrite init_ok.
    + reflexivity.
    + vm_compute. reflexivity.
Qed.

Lemma C5_show_selection_lines_witness :
  ∃ w, CustomTreeWidget__init__ _data = Returns () w
       ∧ UI.show_data_useage
           (UI.run (UI.mk (CustomTreeWidget.select [3; 0] w) "") ["earlier"])
         = Returns ()
             (UI.run (UI.mk (CustomTreeWidget.select [3; 0] w) "")
                [ "earlier";
                  ">> Sequence: abc111"; ">> Shot: abc111_5678";
                  ">> Version: 05"; ">> Location: /file/path";
                  ">> Sequence: zzz999"; ">> Shot: zzz_1234";
                  ">> Version: 01"; ">> Location: /file/path" ]).
Proof.
  eexists. split; [by apply init_ok|].
  refine (proj1 (C5_show_selection_lines _data _ [3; 0] "" ["earlier"] _ _ _)).
  - by apply init_ok.
  - discriminate.
  - repeat (apply Forall_cons; split; [vm_compute; lia|]). apply Forall_nil_2.
Defined.

(** C6: with nothing selected, the button's slot prints the one line
    "Please select a row", prints no field line, does nothing else, and
    leaves the window as it was. *)
Theorem C6_no_selection p :
  CustomTreeWidget.selectedItems (UI.treeWidget (UI.window p)) = [] →
  UI.show_data_useage p =
    Returns () (UI.run (UI.window p) (UI.stdout p ++ ["Please select a row"])).
Proof.
  intros Hsel. unfold UI.show_data_useage.
  erewrite bind_returns; [|reflexivity]. by rewrite Hsel.
Qed.

Lemma C6_no_selection_witness :
  UI.show_data_useage (UI.run (UI.mk (prepared _data) "") []) =
    Returns () (UI.run (UI.mk (prepared _data) "") ["Please select a row"]).
Proof.
  apply (C6_no_selection (UI.run (UI.mk (prepared _data) "") [])).
  reflexivity.
Defined.


(** C7, as stated, fails: the dict that holds only Sequence, with a NUL
    character in its text, lacks three of the four keys, yet the
    constructor raises no [KeyError] (the FieldMissing error): [setText]
    refuses the Sequence text with [ValueError] before a missing key is
    read. *)
Lemma C7_nul_text_raises_before_missing_key :
  let name : FileInfo := {["Sequence" := String Ascii.zero ""]} in
  ¬ (complete name = false →
     ∃ key w',
       CustomTreeItem__init__ name TheWidget (prepared []) = Raises (KeyError key) w').
Proof.
  intros name H. destruct H as (key & w' & Hr); [reflexivity|].
  vm_compute in Hr. discriminate Hr.
Qed.

(** C7, amended: constructing an item from a dict that lacks one of the
    four keys raises from inside the constructor and returns no item, so
    no default text stands in for the missing value.  The exception is
    that of the first column, in the order Sequence, Shot, Version,
    Location, that cannot be set: [KeyError] (the FieldMissing error)
    naming the first missing key when the keys before it hold texts the
    labels take, and [ValueError] when a key before it holds a text with a
    NUL character.  A dictionary in which such a dict is element 0 of a
    nested list makes the whole construction raise. *)
Theorem C7_missing_key_raises name parent w :
  complete name = false →
  (∃ e w', init_error name = Some e
           ∧ CustomTreeItem__init__ name parent w = Raises e w')
  ∧ (∀ a, name !! key_of a = None →
          (∀ a', column a' < column a → settable name a' = true) →
          init_error name = Some (KeyError (key_of a)))
  ∧ (init_error name = Some ValueError
     ∨ ∃ a, name !! key_of a = None ∧ init_error name = Some (KeyError (key_of a)))
  ∧ ∀ pre key before more after post,
      returned (CustomTreeWidget__init__
                  (pre ++ (key, before ++ (name :: more) :: after) :: post)) = false.
Proof.
  intros Hc.
  assert (accepted name = false) as Ha.
  { apply not_true_is_false. intros Ha%accepted_complete. congruence. }
  destruct (item_init_refused name parent w Ha) as (e & w' & He & Hi).
  split; [by exists e, w'|]. split; [|split].
  - intros a Hnone Hbefore. by apply init_error_first_missing.
  - rewrite He. destruct (init_error_cases _ _ He) as [->|(a & -> & Hnone)].
    + by left.
    + right. by exists a.
  - intros pre key before more after post.
    apply not_true_is_false. intros Hr.
    apply init_returned, well_formed_usable in Hr.
    simpl in Hr. congruence.
Qed.

Lemma C7_missing_key_raises_witness :
  let name : FileInfo := delete "Shot" (file "zzz999" "zzz_1234" "01" "/file/path") in
  (∃ e w', init_error name = Some e
           ∧ CustomTreeItem__init__ name TheWidget (prepared []) = Raises e w')
  ∧ (∀ a, name !! key_of a = None →
          (∀ a', column a' < column a → settable name a' = true) →
          init_error name = Some (KeyError (key_of a)))
  ∧ (init_error name = Some ValueError
     ∨ ∃ a, name !! key_of a = None ∧ init_error name = Some (KeyError (key_of a)))
  ∧ ∀ pre key before more after post,
      returned (CustomTreeWidget__init__
                  (pre ++ (key, before ++ (name :: more) :: after) :: post)) = false.
Proof.
  intros name. apply (C7_missing_key_raises name TheWidget (prepared [])).
  vm_compute. reflexivity.
Defined.

(** C8, as stated, fails: for the dictionary whose one folder has an empty
    list the construction returns, but the tree has no item at all, so
    no node with zero children stands for the folder. *)
Lemma C8_empty_folder_has_no_node :
  let w := final_state (CustomTreeWidget__init__ [("/folderEmpty", [])]) in
  ¬ ∃ id, id ∈ CustomTreeWidget.topLevelItems w ∧ children_of w id = [].
Proof.
  intros w (id & Hin & _). vm_compute in Hin. by apply elem_of_nil in Hin.
Qed.

(** C8, amended: for a folder whose list is empty the loop body returns
    without raising and leaves the widget as it was, and the tree is the
    one built without that folder: no node is made for it. *)
Theorem C8_empty_folder_adds_nothing pre key post w :
  for_key_body [] w = Returns () w
  ∧ for_key (pre ++ (key, []) :: post) w = for_key (pre ++ post) w.
Proof.
  split; [done|]. apply for_key_empty_folder.
Qed.

(** C9: for every usable dictionary, the construction makes exactly one
    item per nested list, the item's values being those of the list's
    element 0; elements after the first contribute nothing: the
    dictionary with every nested list cut to its element 0 gives the same
    result from any starting state. *)
Theorem C9_one_item_per_nested_list data :
  well_formed data = true →
  ∃ w, CustomTreeWidget__init__ data = Returns () w
       ∧ length (CustomTreeWidget.items w) = length (flat_map snd data)
       ∧ fields w <$> rows w = flat_map (λ kv, rev (first_values <$> kv.2)) data
       ∧ ∀ w0, for_key (first_only data) w0 = for_key data w0.
Proof.
  intros Hd. pose proof (init_ok _ Hd) as Hw.
  eexists. split; [exact Hw|].
  destruct (init_state _ _ Hw Hd) as (Hi & _ & _).
  destruct (built_rows _ _ Hw) as (_ & _ & Hf).
  split; [|split].
  - by rewrite Hi, length_layout, length_all_names.
  - by rewrite Hf, values_all_names.
  - apply for_key_first_only.
Qed.

Lemma C9_one_item_per_nested_list_witness :
  let data :=
    [("/folderOne",
      [ [file "zzz999" "zzz_1234" "01" "/file/path";
         file "zzz999" "zzz_1234" "02" "/file/path"];
        [file "zzz999" "zzz_1234" "03" "/file/path"; ∅] ])] in
  ∃ w, CustomTreeWidget__init__ data = Returns () w
       ∧ length (CustomTreeWidget.items w) = 2
       ∧ fields w <$> rows w =
           [ [Some "zzz999"; Some "zzz_1234"; Some "03"; Some "/file/path"];
             [Some "zzz999"; Some "zzz_1234"; Some "01"; Some "/file/path"] ]
       ∧ ∀ w0, for_key (first_only data) w0 = for_key data w0.
Proof.
  intros data. apply (C9_one_item_per_nested_list data).
  vm_compute. reflexivity.
Defined.

(** C10: the construction never assigns the dictionary again: whether it
    returns or raises, the widget's [data] property gives back the
    dictionary it was handed, unchanged. *)
Theorem C10_data_unchanged data :
  CustomTreeWidget.data (final_state (CustomTreeWidget__init__ data)) = data.
Proof. apply init_keeps_data. Qed.

End claims.

(** * Further properties of the code *)

(** ** Which exception the construction raises *)

Section which_exception.
Import CustomTreeItem CustomTreeWidget.

Lemma for_val_app l1 l2 : ∀ header w,
  for_val (l1 ++ l2) header w = (for_val l1 header ≫= for_val l2) w.
Proof.
  induction l1 as [|val l1 IH]; intros header w; [done|].
  simpl. unfold mbind, M_bind.
  destruct (list_getitem0 val w) as [name w1|e w1]; [|done].
  destruct (CustomTreeItem__init__ name header w1) as [self w2|e w2]; [|done].
  apply IH.
Qed.

Lemma for_key_app d1 d2 : ∀ w,
  for_key (d1 ++ d2) w = (for_key d1 ≫= λ _, for_key d2) w.
Proof.
  induction d1 as [|[key value] d1 IH]; intros w; [done|].
  simpl. unfold mbind, M_bind.
  destruct (for_key_body value w) as [[] w1|e w1]; [|done].
  apply IH.
Qed.

Lemma place_all_app d1 d2 w : place_all (d1 ++ d2) w = place_all d2 (place_all d1 w).
Proof. apply foldl_app. Qed.

Lemma rev_middle {A} (before later : list A) x :
  rev (before ++ x :: later) = rev later ++ x :: rev before.
Proof. rewrite rev_app_distr. simpl. by rewrite <- app_assoc. Qed.

(** Up to an unusable nested list, the construction builds what it has
    read; then the list decides how it ends. *)
Lemma init_stops_at pre key before bad later post :
  well_formed pre = true →
  forallb usable later = true →
  CustomTreeWidget__init__ (pre ++ (key, before ++ bad :: later) :: post) =
    match
      for_val (bad :: rev before)
        (match newest_first later with
         | [] => TheWidget
         | _ :: _ =>
             AnItem (length (items (place_all pre
                       (prepared (pre ++ (key, before ++ bad :: later) :: post)))))
         end)
        (place_all (pre ++ [(key, later)])
           (prepared (pre ++ (key, before ++ bad :: later) :: post)))
    with
    | Returns _ w =>
        match for_key post w with
        | Returns _ w' => Returns () w'
        | Raises e w' => Raises e w'
        end
    | Raises e w => Raises e w
    end.
Proof.
  intros Hpre Hlater. rewrite init_unfold.
  generalize (prepared (pre ++ (key, before ++ bad :: later) :: post)).
  intros w0. rewrite for_key_app.
  erewrite bind_returns; [|by apply for_key_ok].
  cbn [for_key]. unfold for_key_body, mbind, M_bind.
  rewrite rev_middle, for_val_app.
  rewrite place_all_app. cbn [place_all foldl snd].
  fold (place_all pre w0).
  unfold mbind, M_bind.
  rewrite for_val_under_widget by (by rewrite forallb_rev).
  fold (newest_first later).
  destruct (for_val (bad :: rev before) _ _) as [h w|e w]; [|done].
  done.
Qed.

Lemma tree_place_all data w w' :
  tree w = tree w' → tree (place_all data w) = tree (place_all data w').
Proof.
  unfold tree. intros [= Hi Ht Hw].
  destruct (place_all_state data w) as (-> & -> & ->).
  destruct (place_all_state data w') as (-> & -> & ->).
  by rewrite Hi, Ht, Hw.
Qed.

(** X1: the construction returns exactly for the dictionaries in which
    every nested list has an element 0 and that element holds the four
    keys with texts free of the NUL character; for every other dictionary
    it raises. *)
Theorem X1_returns_iff_usable data :
  returned (CustomTreeWidget__init__ data) = well_formed data.
Proof.
  destruct (well_formed data) eqn:Hd.
  - by rewrite init_ok.
  - apply not_true_is_false. intros Hr. apply init_returned in Hr. congruence.
Qed.

(** X2: an empty nested list makes the construction raise [IndexError]
    when everything read before it is usable: the folders before its own,
    and the elements after it in its own folder's list, which the reversed
    loop reads first.  The tree left behind is the one built from what was
    read. *)
Theorem X2_empty_nested_list_raises pre key before later post :
  well_formed pre = true →
  forallb usable later = true →
  ∃ w w0,
    CustomTreeWidget__init__ (pre ++ (key, before ++ [] :: later) :: post)
      = Raises IndexError w
    ∧ CustomTreeWidget__init__ (pre ++ [(key, later)]) = Returns () w0
    ∧ tree w = tree w0.
Proof.
  intros Hpre Hlater.
  rewrite (init_stops_at _ _ _ _ _ _ Hpre Hlater).
  assert (well_formed (pre ++ [(key, later)]) = true) as Hd.
  { apply well_formed_app. split; [done|]. simpl. by rewrite Hlater. }
  rewrite (init_ok _ Hd).
  eexists _, _. split; [reflexivity|]. split; [reflexivity|].
  by apply tree_place_all.
Qed.

Lemma X2_empty_nested_list_raises_witness :
  ∃ w w0,
    CustomTreeWidget__init__
      ([("/folderOne", [[file "zzz999" "zzz_1234" "01" "/file/path"]])]
       ++ ("/folderTwo",
           [[file "zzz999" "zzz999_000" "01" "/file/path"]]
           ++ [] :: [[file "zzz999" "zzz999_000" "02" "/file/path"]])
          :: [("/folderThree", [[∅]])])
      = Raises IndexError w
    ∧ CustomTreeWidget__init__
        ([("/folderOne", [[file "zzz999" "zzz_1234" "01" "/file/path"]])]
         ++ [("/folderTwo", [[file "zzz999" "zzz999_000" "02" "/file/path"]])])
      = Returns () w0
    ∧ tree w = tree w0.
Proof.
  apply (X2_empty_nested_list_raises
           [("/folderOne", [[file "zzz999" "zzz_1234" "01" "/file/path"]])]
           "/folderTwo"
           [[file "zzz999" "zzz999_000" "01" "/file/path"]]
           [[file "zzz999" "zzz999_000" "02" "/file/path"]]
           [("/folderThree", [[∅]])]).
  - vm_compute. reflexivity.
  - vm_compute. reflexivity.
Defined.

Lemma for_val_raises_error name more rest header w e :
  init_error name = Some e →
  raised (for_val ((name :: more) :: rest) header w) = Some e.
Proof.
  intros He. cbn [for_val].
  erewrite bind_returns; [|reflexivity].
  destruct (item_init_error name header w e He) as [w' Hi].
  by erewrite bind_raises; [|exact Hi].
Qed.

(** X3: when a dict cannot be made into an item, the exception is that of
    the first column, in the order Sequence, Shot, Version, Location, that
    cannot be set: [KeyError] naming the key when it is missing,
    [ValueError] when its text holds a NUL character; what is wrong with
    later columns does not matter.  The item constructor raises it, and so
    does the construction of the widget when everything read before that
    dict is usable. *)
Theorem X3_first_failing_column_decides pre key before name more later post e parent w :
  init_error name = Some e →
  well_formed pre = true →
  forallb usable later = true →
  (∃ w', CustomTreeItem__init__ name parent w = Raises e w')
  ∧ raised (CustomTreeWidget__init__
              (pre ++ (key, before ++ (name :: more) :: later) :: post))
    = Some e.
Proof.
  intros Hm Hpre Hlater. split; [by apply item_init_error|].
  rewrite (init_stops_at _ _ _ _ _ _ Hpre Hlater).
  match goal with
  | |- context [for_val ?l ?h ?s] =>
      pose proof (for_val_raises_error name more (rev before) h s e Hm) as Hr;
      destruct (for_val l h s) as [h' w'|e' w']
  end; [done|exact Hr].
Qed.

Lemma X3_first_failing_column_decides_witness :
  (∃ w', CustomTreeItem__init__
           {["Sequence" := "zzz999"; "Version" := String Ascii.zero "01";
             "Location" := "/file/path"]}
           TheWidget (prepared []) = Raises (KeyError "Shot") w')
  ∧ raised (CustomTreeWidget__init__
              ([("/folderOne", [[file "zzz999" "zzz_1234" "01" "/file/path"]])]
               ++ ("/folderTwo",
                   [[∅]] ++ ({["Sequence" := "zzz999";
                               "Version" := String Ascii.zero "01";
                               "Location" := "/file/path"]} :: [])
                         :: [[file "zzz999" "zzz999_000" "02" "/file/path"]])
                  :: []))
    = Some (KeyError "Shot").
Proof.
  apply (X3_first_failing_column_decides
           [("/folderOne", [[file "zzz999" "zzz_1234" "01" "/file/path"]])]
           "/folderTwo" [[∅]]
           {["Sequence" := "zzz999"; "Version" := String Ascii.zero "01";
             "Location" := "/file/path"]} []
           [[file "zzz999" "zzz999_000" "02" "/file/path"]] [] (KeyError "Shot")
           TheWidget (prepared [])).
  - vm_compute. reflexivity.
  - vm_compute. reflexivity.
  - vm_compute. reflexivity.
Defined.
End which_exception.

(** ** What the loops leave alone *)

Section left_alone.
Import CustomTreeItem CustomTreeWidget.
Context {X : Type} (part : Widget → X).
Hypothesis part_items : ∀ f w, part (with_items f w) = part w.
Hypothesis part_top : ∀ id w, part (addTopLevelItem id w) = part w.
Hypothesis part_widgets : ∀ f w, part (with_itemWidgets f w) = part w.

Lemma preserves_ret {A} (a : A) : preserves part (mret a).
Proof. by intros w. Qed.

Lemma preserves_raise {A} e : preserves part (raise e : M Widget A).
Proof. by intros w. Qed.

Lemma preserves_bind {A B} (m : M Widget A) (f : A → M Widget B) :
  preserves part m → (∀ a, preserves part (f a)) → preserves part (m ≫= f).
Proof.
  intros Hm Hf w. specialize (Hm w). unfold mbind, M_bind.
  destruct (m w) as [a w'|e w']; simpl in *; [|done].
  by rewrite Hf.
Qed.

Lemma preserves_read self a : preserves part (read self a).
Proof.
  intros w. unfold read.
  destruct (items w !! self) as [i|]; [|done].
  by destruct (getattr a i).
Qed.

Lemma preserves_assign self a l : preserves part (assign self a l).
Proof. intros w. apply part_items. Qed.

Lemma preserves_setItemWidget id c l : preserves part (setItemWidget id c l).
Proof. intros w. exact (part_widgets (insert (id, c) l) w). Qed.

Lemma preserves_base_init parent : preserves part (QTreeWidgetItem__init__ parent).
Proof.
  intros w. destruct parent; simpl.
  - by rewrite part_top, part_items.
  - by rewrite part_items.
Qed.

Lemma preserves_build_column self a name : preserves part (build_column self a name).
Proof.
  unfold build_column.
  repeat first
    [ apply preserves_read
    | apply preserves_assign
    | apply preserves_setItemWidget
    | apply preserves_bind; [|intros ?]
    | unfold dict_getitem; destruct (name !! key_of a);
      [apply preserves_ret | apply preserves_raise]
    | unfold setText; match goal with |- context [has_nul ?v] => destruct (has_nul v) end;
      [apply preserves_raise | apply preserves_ret] ].
Qed.

Lemma preserves_item_init name parent : preserves part (CustomTreeItem__init__ name parent).
Proof.
  unfold CustomTreeItem__init__.
  repeat first
    [ apply preserves_build_column
    | apply preserves_base_init
    | apply preserves_ret
    | apply preserves_bind; [|intros ?] ].
Qed.

Lemma preserves_for_val vals : ∀ header, preserves part (for_val vals header).
Proof.
  induction vals as [|val vals IH]; intros header; simpl; [apply preserves_ret|].
  apply preserves_bind; [|intros name; apply preserves_bind; [|intros ?]].
  - destruct val; [apply preserves_raise | apply preserves_ret].
  - apply preserves_item_init.
  - apply IH.
Qed.

Lemma preserves_for_key data : preserves part (for_key data).
Proof.
  induction data as [|[key value] data IH]; simpl; [apply preserves_ret|].
  apply preserves_bind; [|by intros ?].
  unfold for_key_body. apply preserves_bind; [apply preserves_for_val|].
  intros ?. apply preserves_ret.
Qed.
End left_alone.

Section settings_kept.
Import CustomTreeItem CustomTreeWidget.

(** X4: whatever the dictionary, and whether the construction returns or
    raises, the widget ends with four columns, the header labels Sequence,
    Shot, Version, Location, and nothing selected: the loops that build the
    items never touch these. *)
Theorem X4_columns_headers_selection data :
  settings (final_state (CustomTreeWidget__init__ data))
  = (4, ["Sequence"; "Shot"; "Version"; "Location"], []).
Proof.
  rewrite init_unfold.
  pose proof (preserves_for_key settings (λ _ _, eq_refl) (λ _ _, eq_refl)
                (λ _ _, eq_refl) data (prepared data)) as Hk.
  by destruct (for_key data (prepared data)).
Qed.
End settings_kept.

(** ** The loops never look at [_data] *)

Section data_ignored.
Import CustomTreeItem CustomTreeWidget.

Lemma ignores_ret {A} (a : A) : ignores_data (mret a).
Proof. by intros d w. Qed.

Lemma ignores_raise {A} e : ignores_data (raise e : M Widget A).
Proof. by intros d w. Qed.

Lemma ignores_bind {A B} (m : M Widget A) (f : A → M Widget B) :
  ignores_data m → (∀ a, ignores_data (f a)) → ignores_data (m ≫= f).
Proof.
  intros Hm Hf d w. unfold mbind, M_bind. rewrite Hm.
  destruct (m w) as [a w'|e w']; simpl; [apply Hf|done].
Qed.

Lemma ignores_read self a : ignores_data (read self a).
Proof.
  intros d w. unfold read. simpl.
  destruct (items w !! self) as [i|]; [|done].
  by destruct (getattr a i).
Qed.

Lemma ignores_assign self a l : ignores_data (assign self a l).
Proof. by intros d w. Qed.

Lemma ignores_setItemWidget id c l : ignores_data (setItemWidget id c l).
Proof. by intros d w. Qed.

Lemma ignores_base_init parent : ignores_data (QTreeWidgetItem__init__ parent).
Proof. intros d w. by destruct parent. Qed.

Lemma ignores_build_column self a name : ignores_data (build_column self a name).
Proof.
  unfold build_column.
  repeat first
    [ apply ignores_read
    | apply ignores_assign
    | apply ignores_setItemWidget
    | apply ignores_bind; [|intros ?]
    | unfold dict_getitem; destruct (name !! key_of a);
      [apply ignores_ret | apply ignores_raise]
    | unfold setText; match goal with |- context [has_nul ?v] => destruct (has_nul v) end;
      [apply ignores_raise | apply ignores_ret] ].
Qed.

Lemma ignores_item_init name parent : ignores_data (CustomTreeItem__init__ name parent).
Proof.
  unfold CustomTreeItem__init__.
  repeat first
    [ apply ignores_build_column
    | apply ignores_base_init
    | apply ignores_ret
    | apply ignores_bind; [|intros ?] ].
Qed.

Lemma ignores_for_val vals : ∀ header, ignores_data (for_val vals header).
Proof.
  induction vals as [|val vals IH]; intros header; simpl; [apply ignores_ret|].
  apply ignores_bind; [|intros name; apply ignores_bind; [|intros ?]].
  - destruct val; [apply ignores_raise | apply ignores_ret].
  - apply ignores_item_init.
  - apply IH.
Qed.

Lemma ignores_for_key data : ignores_data (for_key data).
Proof.
  induction data as [|[key value] data IH]; simpl; [apply ignores_ret|].
  apply ignores_bind; [|by intros ?].
  unfold for_key_body. apply ignores_bind; [apply ignores_for_val|].
  intros ?. apply ignores_ret.
Qed.

(** X5: folders are built strictly in the dictionary's order, and a raise
    ends the construction at once: when the construction of a dictionary
    raises, the construction of that dictionary with more folders added
    after it raises the same exception and leaves the same tree; nothing
    of the added folders is built. *)
Theorem X5_raise_stops_later_folders d1 d2 :
  returned (CustomTreeWidget__init__ d1) = false →
  raised (CustomTreeWidget__init__ (d1 ++ d2)) = raised (CustomTreeWidget__init__ d1)
  ∧ tree (final_state (CustomTreeWidget__init__ (d1 ++ d2)))
    = tree (final_state (CustomTreeWidget__init__ d1)).
Proof.
  rewrite !init_unfold. intros Hr.
  change (prepared (d1 ++ d2)) with (set_data (d1 ++ d2) (prepared d1)).
  rewrite for_key_app. unfold mbind, M_bind.
  rewrite ignores_for_key.
  by destruct (for_key d1 (prepared d1)) as [[] w1|e w1].
Qed.

Lemma X5_raise_stops_later_folders_witness :
  raised (CustomTreeWidget__init__
            ([("/folderOne", [[file "zzz999" "zzz_1234" "01" "/file/path"]; []])]
             ++ [("/folderTwo", [[file "zzz999" "zzz999_000" "01" "/file/path"]])]))
  = raised (CustomTreeWidget__init__
              [("/folderOne", [[file "zzz999" "zzz_1234" "01" "/file/path"]; []])])
  ∧ tree (final_state (CustomTreeWidget__init__
            ([("/folderOne", [[file "zzz999" "zzz_1234" "01" "/file/path"]; []])]
             ++ [("/folderTwo", [[file "zzz999" "zzz999_000" "01" "/file/path"]])])))
    = tree (final_state (CustomTreeWidget__init__
              [("/folderOne", [[file "zzz999" "zzz_1234" "01" "/file/path"]; []])])).
Proof.
  apply (X5_raise_stops_later_folders
           [("/folderOne", [[file "zzz999" "zzz_1234" "01" "/file/path"]; []])]
           [("/folderTwo", [[file "zzz999" "zzz999_000" "01" "/file/path"]])]).
  reflexivity.
Defined.
End data_ignored.

(** ** The button's slot only prints *)

Section slot_only_prints.
Import UI.

Lemma only_prints_ret {A} (a : A) : only_prints (mret a).
Proof. intros win out. unfold mret, M_ret. simpl. by rewrite app_nil_r. Qed.

Lemma only_prints_print line : only_prints (print line).
Proof. by intros win out. Qed.

Lemma only_prints_attr_text selected a : only_prints (attr_text selected a).
Proof.
  intros win out. unfold attr_text. simpl.
  destruct (read selected a (treeWidget win)); simpl; by rewrite app_nil_r.
Qed.

Lemma only_prints_bind {A B} (m : M Process A) (f : A → M Process B) :
  only_prints m → (∀ a, only_prints (f a)) → only_prints (m ≫= f).
Proof.
  intros Hm Hf win out. unfold mbind, M_bind.
  rewrite (Hm win out). pose proof (Hm win []) as Hnil.
  destruct (m (run win [])) as [a [win0 l0]|e [win0 l0]]; simpl in *; [|done].
  injection Hnil as ->.
  rewrite (Hf a win (out ++ l0)), (Hf a win l0).
  destruct (f a (run win [])) as [b p|e p]; simpl; by rewrite app_assoc.
Qed.

Lemma only_prints_for_selected sel : only_prints (for_selected sel).
Proof.
  induction sel as [|selected sel IH]; simpl; [apply only_prints_ret|].
  repeat first
    [ exact IH
    | apply only_prints_attr_text
    | apply only_prints_print
    | apply only_prints_bind; [|intros ?] ].
Qed.

Lemma only_prints_show : only_prints show_data_useage.
Proof.
  intros win out. unfold show_data_useage, mbind at 1 2, M_bind, gets. simpl.
  destruct (CustomTreeWidget.selectedItems (treeWidget win)) as [|id sel].
  - apply only_prints_print.
  - apply only_prints_for_selected.
Qed.

(** X6: the button's slot never changes the window, neither the tree nor
    the selection, and never removes a printed line: it only adds lines
    after those already printed.  The lines it adds, and whether it
    returns, depend on the window alone, so a second click prints the same
    lines again. *)
Theorem X6_slot_only_appends p :
  final_state (show_data_useage p) = run (window p) (stdout p ++ printed (window p))
  ∧ returned (show_data_useage p) = returned (show_data_useage (run (window p) [])).
Proof.
  destruct p as [win out]. simpl. unfold printed.
  rewrite (only_prints_show win out).
  by destruct (show_data_useage (run win [])).
Qed.
End slot_only_prints.

(** ** The shape of the built tree *)

Section shape.
Import CustomTreeItem CustomTreeWidget.

Lemma install_other_column n name iw id c :
  4 ≤ c → install n name iw !! (id, c) = iw !! (id, c).
Proof.
  intros Hc. unfold install.
  rewrite !lookup_insert_ne; [done|intros [= _ <-]; lia..].
Qed.

Lemma install_from_other_column n names iw id c :
  4 ≤ c → install_from n names iw !! (id, c) = iw !! (id, c).
Proof.
  intros Hc. revert n iw.
  induction names as [|nm names IH]; intros n iw; simpl; [done|].
  rewrite IH. by apply install_other_column.
Qed.

Lemma install_from_after n names iw id c :
  n + length names ≤ id → install_from n names iw !! (id, c) = iw !! (id, c).
Proof.
  revert n iw. induction names as [|nm names IH]; intros n iw Hid; simpl in *; [done|].
  rewrite IH by lia. apply install_other. lia.
Qed.

(** X7: in the built tree a column holds a widget exactly where
    [__init__] put one: on columns 0 to 3 of every item, and there its
    text is the text of the label the item's property for that column
    returns.  No other column and no other row has a widget. *)
Theorem X7_column_widgets_are_the_property_labels data w :
  CustomTreeWidget__init__ data = Returns () w →
  ∀ id c,
    itemWidgets w !! (id, c) =
      item_of w id ≫= λ i, column_attr c ≫= λ a, getattr a i.
Proof.
  intros Hw id c.
  assert (well_formed data = true) as Hd by (apply init_returned; by rewrite Hw).
  destruct (init_state _ _ Hw Hd) as (Hi & _ & Hiw).
  unfold item_of. rewrite Hiw, Hi.
  destruct (layout 0 data !! id) as [i|] eqn:Hlook; simpl.
  - destruct (layout_lookup _ _ _ _ Hlook) as (par & kids & name & -> & Hn).
    destruct c as [|[|[|[|c]]]]; simpl.
    + apply (install_from_lookup 0 _ ∅ id name sequence Hn).
    + apply (install_from_lookup 0 _ ∅ id name shot Hn).
    + apply (install_from_lookup 0 _ ∅ id name version Hn).
    + apply (install_from_lookup 0 _ ∅ id name location Hn).
    + rewrite install_from_other_column by lia. apply lookup_empty.
  - apply lookup_ge_None in Hlook. rewrite length_layout in Hlook.
    rewrite install_from_after by (simpl; lia). apply lookup_empty.
Qed.

Lemma X7_column_widgets_are_the_property_labels_witness :
  ∃ w, CustomTreeWidget__init__
         [("/folderOne", [[file "zzz999" "zzz_1234" "01" "/file/path"]])]
       = Returns () w
       ∧ ∀ id c,
           itemWidgets w !! (id, c) =
             item_of w id ≫= λ i, column_attr c ≫= λ a, getattr a i.
Proof.
  eexists. split; [by apply init_ok|].
  apply (X7_column_widgets_are_the_property_labels
           [("/folderOne", [[file "zzz999" "zzz_1234" "01" "/file/path"]])]).
  by apply init_ok.
Defined.

(** X8: in the built tree every item is a row of the view exactly once,
    and the rows, read top to bottom, are the items in the order they were
    created. *)
Theorem X8_every_item_is_one_row data w :
  CustomTreeWidget__init__ data = Returns () w →
  rows w = seq 0 (length (items w)).
Proof.
  intros Hw.
  assert (well_formed data = true) as Hd by (apply init_returned; by rewrite Hw).
  destruct (init_state _ _ Hw Hd) as (Hi & Ht & _).
  by apply (rows_built data).
Qed.

Lemma X8_every_item_is_one_row_witness :
  ∃ w, CustomTreeWidget__init__
         [("/folderOne",
           [ [file "zzz999" "zzz_1234" "01" "/file/path"];
             [file "zzz999" "zzz_1234" "02" "/file/path"] ])]
       = Returns () w
       ∧ rows w = seq 0 (length (items w)).
Proof.
  eexists. split; [by apply init_ok|].
  apply (X8_every_item_is_one_row
           [("/folderOne",
             [ [file "zzz999" "zzz_1234" "01" "/file/path"];
               [file "zzz999" "zzz_1234" "02" "/file/path"] ])]).
  by apply init_ok.
Defined.

(** X9: adding folders after the others leaves the earlier part of the
    tree as it was: the tree of the longer dictionary has the items, the
    top-level items and the rows of the shorter one's tree at its start,
    and shows the same labels on them. *)
Theorem X9_earlier_folders_unchanged d1 d2 w :
  CustomTreeWidget__init__ (d1 ++ d2) = Returns () w →
  ∃ w1 more_items more_top,
    CustomTreeWidget__init__ d1 = Returns () w1
    ∧ items w = items w1 ++ more_items
    ∧ topLevelItems w = topLevelItems w1 ++ more_top
    ∧ rows w = rows w1 ++ seq (length (items w1)) (length more_items)
    ∧ ∀ id c, id < length (items w1) →
              itemWidgets w !! (id, c) = itemWidgets w1 !! (id, c).
Proof.
  intros Hw.
  assert (well_formed (d1 ++ d2) = true) as Hd
    by (apply init_returned; by rewrite Hw).
  pose proof Hd as [Hd1 Hd2]%well_formed_app.
  pose proof (init_ok _ Hd1) as Hw1.
  destruct (init_state _ _ Hw Hd) as (Hi & Ht & Hiw).
  destruct (init_state _ _ Hw1 Hd1) as (Hi1 & Ht1 & Hiw1).
  pose proof (rows_built _ _ Hi Ht) as Hr.
  pose proof (rows_built _ _ Hi1 Ht1) as Hr1.
  eexists _, (layout (0 + length (all_names d1)) d2),
    (tops (0 + length (all_names d1)) d2).
  split; [exact Hw1|].
  rewrite Hr, Hr1, Hi, Ht, Hiw, Hi1, Ht1, Hiw1.
  rewrite layout_app, tops_app, all_names_app, install_from_app.
  rewrite length_app, seq_app, !length_layout.
  repeat split.
  intros id c Hid. by rewrite install_from_before by (simpl; lia).
Qed.

Lemma X9_earlier_folders_unchanged_witness :
  ∃ w w1 more_items more_top,
    CustomTreeWidget__init__
      ([("/folderOne", [[file "zzz999" "zzz_1234" "01" "/file/path"]])]
       ++ [("/folderTwo", [[file "zzz999" "zzz999_000" "01" "/file/path"]])])
    = Returns () w
    ∧ CustomTreeWidget__init__
        [("/folderOne", [[file "zzz999" "zzz_1234" "01" "/file/path"]])]
      = Returns () w1
    ∧ items w = items w1 ++ more_items
    ∧ topLevelItems w = topLevelItems w1 ++ more_top
    ∧ rows w = rows w1 ++ seq (length (items w1)) (length more_items)
    ∧ ∀ id c, id < length (items w1) →
              itemWidgets w !! (id, c) = itemWidgets w1 !! (id, c).
Proof.
  pose proof (init_ok
    ([("/folderOne", [[file "zzz999" "zzz_1234" "01" "/file/path"]])]
     ++ [("/folderTwo", [[file "zzz999" "zzz999_000" "01" "/file/path"]])])
    eq_refl) as H.
  destruct (X9_earlier_folders_unchanged _ _ _ H) as (w1 & mi & mt & P).
  eexists _, w1, mi, mt. split; [exact H|exact P].
Defined.
End shape.

(** ** The top level, folder by folder *)

Section top_level.
Import CustomTreeItem CustomTreeWidget.

Lemma tops_summary data : ∀ (n : nat) (w : Widget),
  well_formed data = true →
  (∀ j i, layout n data !! j = Some i → items w !! (n + j) = Some i) →
  fields w <$> tops n data
    = flat_map (λ kv, from_option (λ val, [first_values val]) [] (last kv.2)) data
  ∧ (λ id, length (children_of w id)) <$> tops n data
    = flat_map (λ kv, match kv.2 with [] => [] | _ :: rest => [length rest] end) data.
Proof.
  induction data as [|[key value] data IH]; intros n w Hd Hl; [done|].
  simpl in Hd. apply andb_true_iff in Hd as [Hv Hd]. simpl in *.
  destruct (IH (n + length (newest_first value)) w Hd) as [IHf IHc].
  { intros j i Hj. rewrite <- Nat.add_assoc. apply Hl.
    rewrite lookup_app_r by (rewrite length_folder_items; lia).
    rewrite length_folder_items.
    by replace (length (newest_first value) + j - length (newest_first value))
      with j by lia. }
  rewrite !fmap_app, IHf, IHc.
  pose proof (length_newest_first _ Hv) as Hlen.
  pose proof (complete_newest_first _ Hv) as Hall.
  destruct (newest_first value) as [|name more] eqn:Hnf.
  { destruct value; [done|discriminate Hlen]. }
  destruct (newest_is_last _ _ _ Hv Hnf) as (val & -> & Hh).
  assert (items w !! n = Some (created TheWidget (seq (S n) (length more)) name))
    as Hn by (rewrite <- (Nat.add_0_r n) at 1; by apply Hl).
  simpl. rewrite (fields_item _ _ _ Hn), (children_item _ _ _ Hn). simpl.
  rewrite length_seq.
  apply Forall_cons in Hall as [Hc _].
  destruct val as [|name' rest']; [done|]. injection Hh as ->.
  simpl. rewrite <- (texts_values _ Hc).
  destruct value as [|v0 vrest]; [done|]. simpl in Hlen.
  split; [done|]. simpl. f_equal. lia.
Qed.

(** X10: in the built tree the top-level rows are, in the dictionary's
    order, one per folder whose list is not empty; each shows the values of
    element 0 of the last nested list of its folder, and has one child for
    each of the folder's other nested lists.  Folders with an empty list
    have no row. *)
Theorem X10_top_level_rows data w :
  CustomTreeWidget__init__ data = Returns () w →
  fields w <$> topLevelItems w
    = flat_map (λ kv, from_option (λ val, [first_values val]) [] (last kv.2)) data
  ∧ child_counts w
    = flat_map (λ kv, match kv.2 with [] => [] | _ :: rest => [length rest] end) data.
Proof.
  intros Hw.
  assert (well_formed data = true) as Hd by (apply init_returned; by rewrite Hw).
  destruct (init_state _ _ Hw Hd) as (Hi & Ht & _).
  unfold child_counts. rewrite Ht.
  apply tops_summary; [done|]. intros j i Hj. by rewrite Hi.
Qed.

Lemma X10_top_level_rows_witness :
  ∃ w, CustomTreeWidget__init__
         [ ("/folderOne", []);
           ("/folderTwo",
            [ [file "zzz999" "zzz999_000" "01" "/file/path"];
              [file "zzz999" "zzz999_000" "02" "/file/path"] ]) ]
       = Returns () w
       ∧ fields w <$> topLevelItems w
         = [[Some "zzz999"; Some "zzz999_000"; Some "02"; Some "/file/path"]]
       ∧ child_counts w = [1].
Proof.
  eexists. split; [by apply init_ok|].
  apply (X10_top_level_rows
           [ ("/folderOne", []);
             ("/folderTwo",
              [ [file "zzz999" "zzz999_000" "01" "/file/path"];
                [file "zzz999" "zzz999_000" "02" "/file/path"] ]) ]).
  by apply init_ok.
Defined.
End top_level.

(** ** Parents and children *)

Section parents.
Import CustomTreeItem CustomTreeWidget.

(** Every item of the layout is either the first item of its folder, with
    the folder's other items as its children, or one of those children. *)
Lemma layout_item_cases data : ∀ (n j : nat) i,
  layout n data !! j = Some i →
  (∃ k name,
      i = created TheWidget (seq (S (n + j)) k) name
      ∧ n + j ∈ tops n data
      ∧ ∀ c, c < k →
             ∃ nm, layout n data !! (S j + c) = Some (created (AnItem (n + j)) [] nm))
  ∨ (∃ r k name nm,
      i = created (AnItem (n + r)) [] nm
      ∧ layout n data !! r = Some (created TheWidget (seq (S (n + r)) k) name)
      ∧ r < j ≤ r + k
      ∧ n + r ∈ tops n data).
Proof.
  induction data as [|[key value] data IH]; intros n j i Hj; [done|].
  simpl in *. rewrite lookup_app in Hj.
  destruct (folder_items n (newest_first value) !! j) as [i'|] eqn:Hf.
  - injection Hj as ->.
    destruct (newest_first value) as [|name more]; [done|].
    destruct j as [|j]; simpl in Hf.
    + injection Hf as <-. left. exists (length more), name.
      rewrite Nat.add_0_r. split; [done|]. split; [apply elem_of_app; left; apply list_elem_of_here|].
      intros c Hc. destruct (lookup_lt_is_Some_2 more c Hc) as [nm Hnm].
      exists nm. simpl.
      rewrite lookup_app_l by (by rewrite length_fmap).
      by rewrite list_lookup_fmap, Hnm.
    + rewrite list_lookup_fmap in Hf.
      destruct (more !! j) as [nm|] eqn:Hnm; [|done]. injection Hf as <-.
      right. exists 0, (length more), name, nm.
      rewrite Nat.add_0_r. split; [done|]. split; [done|].
      apply lookup_lt_Some in Hnm.
      split; [lia|]. apply elem_of_app; left; apply list_elem_of_here.
  - apply lookup_ge_None in Hf. rewrite length_folder_items in *.
    set (a := length (newest_first value)) in *.
    destruct (IH (n + a) (j - a) i Hj)
      as [(k & name & -> & Hin & Hkids)|(r & k & name & nm & -> & Hr & Hrange & Hin)].
    + left. exists k, name.
      replace (n + a + (j - a)) with (n + j) in * by lia.
      split; [done|]. split; [apply elem_of_app; by right|].
      intros c Hc. destruct (Hkids c Hc) as [nm Hnm]. exists nm.
      rewrite lookup_app_r by (rewrite length_folder_items; fold a; lia).
      rewrite length_folder_items. fold a.
      match goal with
      | |- _ !! ?x = _ => by replace x with (S (j - a) + c) by lia
      end.
    + right. exists (a + r), k, name, nm.
      replace (n + (a + r)) with (n + a + r) by lia.
      split; [done|]. split; [|split; [lia|apply elem_of_app; by right]].
      rewrite lookup_app_r by (rewrite length_folder_items; fold a; lia).
      rewrite length_folder_items. fold a.
      match goal with
      | |- _ !! ?x = _ => by replace x with r by lia
      end.
Qed.

Lemma tops_are_first_items data : ∀ (n id : nat),
  id ∈ tops n data →
  ∃ i, n ≤ id ∧ layout n data !! (id - n) = Some i ∧ parent i = TheWidget.
Proof.
  induction data as [|[key value] data IH]; intros n id Hin.
  { by apply elem_of_nil in Hin. }
  simpl in *. apply elem_of_app in Hin as [Hin|Hin].
  - destruct (newest_first value) as [|name more]; [by apply elem_of_nil in Hin|].
    apply list_elem_of_singleton in Hin as ->.
    eexists. split; [lia|]. by rewrite Nat.sub_diag.
  - destruct (IH _ _ Hin) as (i & Hle & Hi & Hp).
    exists i. split; [lia|]. split; [|done].
    rewrite lookup_app_r by (rewrite length_folder_items; lia).
    rewrite length_folder_items.
    by replace (id - n - length (newest_first value))
      with (id - (n + length (newest_first value))) by lia.
Qed.

(** X11: in the built tree the parent recorded in an item and the lists
    of children agree: the top-level items are exactly the items whose
    parent is the widget, the children of an item are exactly the items
    whose parent is that item, and the tree is two levels deep, every
    parent of a child being a top-level item and no child having children
    of its own. *)
Theorem X11_parents_and_children_agree data w :
  CustomTreeWidget__init__ data = Returns () w →
  (∀ id, id ∈ topLevelItems w ↔ ∃ i, item_of w id = Some i ∧ parent i = TheWidget)
  ∧ (∀ p id, id ∈ children_of w p ↔ ∃ i, item_of w id = Some i ∧ parent i = AnItem p)
  ∧ (∀ p id, id ∈ children_of w p → p ∈ topLevelItems w ∧ children_of w id = []).
Proof.
  intros Hw.
  assert (well_formed data = true) as Hd by (apply init_returned; by rewrite Hw).
  destruct (init_state _ _ Hw Hd) as (Hi & Ht & _).
  assert (∀ p id, id ∈ children_of w p →
            p ∈ topLevelItems w
            ∧ ∃ nm, item_of w id = Some (created (AnItem p) [] nm)) as Hkid.
  { intros p id Hin. unfold children_of, item_of in *. rewrite Hi in *.
    destruct (layout 0 data !! p) as [ip|] eqn:Hp; [|by apply elem_of_nil in Hin].
    destruct (layout_item_cases _ _ _ _ Hp)
      as [(k & name & -> & Htop & Hkids)|(r & k & name & nm & -> & _)];
      [|by apply elem_of_nil in Hin].
    simpl in *. rewrite Ht. split; [done|].
    apply elem_of_seq in Hin.
    destruct (Hkids (id - S p)) as [nm Hnm]; [lia|].
    exists nm. by replace (S (p + (id - S p))) with id in Hnm by lia. }
  split; [|split].
  - intros id. rewrite Ht. unfold item_of. rewrite Hi. split.
    + intros Hin. destruct (tops_are_first_items _ _ _ Hin) as (i & _ & Hl & Hp).
      rewrite Nat.sub_0_r in Hl. by exists i.
    + intros (i & Hl & Hp).
      destruct (layout_item_cases _ _ _ _ Hl)
        as [(k & name & -> & Htop & _)|(r & k & name & nm & -> & _)]; [done|].
      discriminate Hp.
  - intros p id. split.
    + intros Hin. destruct (Hkid p id Hin) as (_ & nm & Hnm). by eexists.
    + intros (i & Hl & Hp). unfold item_of, children_of in *. rewrite Hi in *.
      destruct (layout_item_cases _ _ _ _ Hl)
        as [(k & name & -> & _)|(r & k & name & nm & -> & Hr & Hrange & _)];
        [discriminate Hp|].
      simpl in *. injection Hp as <-. unfold item_of. rewrite Hi, Hr. simpl.
      apply elem_of_seq. lia.
  - intros p id Hin. destruct (Hkid p id Hin) as (Htop & nm & Hnm).
    split; [done|]. unfold children_of. by rewrite Hnm.
Qed.

Lemma X11_parents_and_children_agree_witness :
  ∃ w, CustomTreeWidget__init__
         [("/folderOne",
           [ [file "zzz999" "zzz_1234" "01" "/file/path"];
             [file "zzz999" "zzz_1234" "02" "/file/path"] ])]
       = Returns () w
  ∧ (∀ id, id ∈ topLevelItems w ↔ ∃ i, item_of w id = Some i ∧ parent i = TheWidget)
  ∧ (∀ p id, id ∈ children_of w p ↔ ∃ i, item_of w id = Some i ∧ parent i = AnItem p)
  ∧ (∀ p id, id ∈ children_of w p → p ∈ topLevelItems w ∧ children_of w id = []).
Proof.
  eexists. split; [by apply init_ok|].
  apply (X11_parents_and_children_agree
           [("/folderOne",
             [ [file "zzz999" "zzz_1234" "01" "/file/path"];
               [file "zzz999" "zzz_1234" "02" "/file/path"] ])]).
  by apply init_ok.
Defined.

(** X12: constructing an item touches only its parent.  When [__init__]
    returns, the new item is the last of the tree's items; the items that
    were there are as before, except that a parent item has the new item
    appended to its children; a parent widget has it appended to its top
    level; the column widgets of the other rows, the widget's columns,
    headers, selection and dictionary are as before. *)
Theorem X12_new_item_touches_only_its_parent name par w self w' :
  CustomTreeItem__init__ name par w = Returns self w' →
  self = length (items w)
  ∧ items w' =
      match par with
      | TheWidget => items w
      | AnItem p => alter (addChild self) p (items w)
      end ++ [created par [] name]
  ∧ topLevelItems w' =
      topLevelItems w ++ (if isinstance_CustomTreeWidget par then [self] else [])
  ∧ (∀ id c, id ≠ self → itemWidgets w' !! (id, c) = itemWidgets w !! (id, c))
  ∧ settings w' = settings w
  ∧ _data w' = _data w.
Proof.
  intros Hi.
  destruct (accepted name) eqn:Hc.
  - rewrite (item_init_ok _ _ _ Hc) in Hi. injection Hi as <- <-.
    split; [done|].
    destruct par as [|p]; simpl; rewrite ?app_nil_r;
      (repeat split; [intros id c Hne; by apply install_other]).
  - destruct (item_init_refused name par w Hc) as (e & w1 & _ & Hr).
    congruence.
Qed.

Lemma X12_new_item_touches_only_its_parent_witness :
  ∃ self w',
    CustomTreeItem__init__ (file "zzz999" "zzz_1234" "01" "/file/path")
      (AnItem 0)
      (place TheWidget (file "zzz999" "zzz_1234" "02" "/file/path") (prepared []))
    = Returns self w'
    ∧ self = 1
    ∧ items w' =
        [ created TheWidget [1] (file "zzz999" "zzz_1234" "02" "/file/path");
          created (AnItem 0) [] (file "zzz999" "zzz_1234" "01" "/file/path") ]
    ∧ topLevelItems w' = [0].
Proof.
  pose proof (item_init_ok (file "zzz999" "zzz_1234" "01" "/file/path") (AnItem 0)
                (place TheWidget (file "zzz999" "zzz_1234" "02" "/file/path")
                   (prepared []))
                eq_refl) as H.
  destruct (X12_new_item_touches_only_its_parent _ _ _ _ _ H) as (H1 & H2 & H3 & _).
  eexists _, _. split; [exact H|]. split; [exact H1|]. split; [exact H2|exact H3].
Defined.
End parents.

(** ** What the tree does not depend on *)

Section read_only_part.
Import CustomTreeItem CustomTreeWidget.

Lemma build_column_same self a name name' w :
  name !! key_of a = name' !! key_of a →
  build_column self a name w = build_column self a name' w.
Proof. intros H. unfold build_column, dict_getitem. by rewrite H. Qed.

Lemma item_init_same name name' par w :
  values name = values name' →
  CustomTreeItem__init__ name par w = CustomTreeItem__init__ name' par w.
Proof.
  intros [= H1 H2 H3 H4]. unfold CustomTreeItem__init__, mbind, M_bind.
  destruct (QTreeWidgetItem__init__ par w) as [self w0|e w0]; [|done].
  rewrite (build_column_same self sequence name name') by done.
  destruct (build_column self sequence name' w0) as [[] w1|e w1]; [|done].
  rewrite (build_column_same self shot name name') by done.
  destruct (build_column self shot name' w1) as [[] w2|e w2]; [|done].
  rewrite (build_column_same self version name name') by done.
  destruct (build_column self version name' w2) as [[] w3|e w3]; [|done].
  by rewrite (build_column_same self location name name').
Qed.

Lemma for_val_same vals : ∀ vals' header w,
  (λ val : list FileInfo, values <$> head val) <$> vals
  = (λ val : list FileInfo, values <$> head val) <$> vals' →
  for_val vals header w = for_val vals' header w.
Proof.
  induction vals as [|val vals IH]; intros [|val' vals'] header w Heq;
    try done.
  injection Heq as Hh Ht. simpl. unfold mbind, M_bind.
  destruct val as [|name more], val' as [|name' more']; try done.
  assert (values name = values name') as Hv by (simpl in Hh; congruence).
  cbn [list_getitem0]. unfold mret, M_ret.
  rewrite (item_init_same name name' header w Hv).
  destruct (CustomTreeItem__init__ name' header w) as [self w1|e w1]; [|done].
  by apply IH.
Qed.

Lemma for_key_same data : ∀ data' w,
  read_part data = read_part data' → for_key data w = for_key data' w.
Proof.
  induction data as [|[key value] data IH]; intros [|[key' value'] data'] w Heq;
    try done.
  injection Heq as Hv Hd. simpl. unfold for_key_body, mbind, M_bind.
  rewrite (for_val_same (rev value) (rev value')) by (by rewrite !fmap_rev, Hv).
  destruct (for_val (rev value') TheWidget w) as [h w1|e w1]; [|done].
  simpl. by apply IH.
Qed.

(** X13: the tree, and the exception if the construction raises, depend
    only on the four values of the dict at index 0 of every nested list:
    the folder keys, any further keys of a dict and any further elements
    of a nested list are never used. *)
Theorem X13_only_the_read_part_matters data data' :
  read_part data = read_part data' →
  raised (CustomTreeWidget__init__ data) = raised (CustomTreeWidget__init__ data')
  ∧ tree (final_state (CustomTreeWidget__init__ data))
    = tree (final_state (CustomTreeWidget__init__ data')).
Proof.
  intros Heq. rewrite !init_unfold.
  rewrite (for_key_same data data' _ Heq).
  change (prepared data) with (set_data data (prepared data')).
  rewrite ignores_for_key.
  by destruct (for_key data' (prepared data')) as [[] w|e w].
Qed.

Lemma X13_only_the_read_part_matters_witness :
  raised (CustomTreeWidget__init__
            [("/folderOne", [[file "zzz999" "zzz_1234" "01" "/file/path"]])])
  = raised (CustomTreeWidget__init__
              [("/renamed",
                [[<["Artist" := "someone"]> (file "zzz999" "zzz_1234" "01" "/file/path");
                  ∅]])])
  ∧ tree (final_state (CustomTreeWidget__init__
            [("/folderOne", [[file "zzz999" "zzz_1234" "01" "/file/path"]])]))
    = tree (final_state (CustomTreeWidget__init__
              [("/renamed",
                [[<["Artist" := "someone"]> (file "zzz999" "zzz_1234" "01" "/file/path");
                  ∅]])])).
Proof.
  apply (X13_only_the_read_part_matters
           [("/folderOne", [[file "zzz999" "zzz_1234" "01" "/file/path"]])]
           [("/renamed",
             [[<["Artist" := "someone"]> (file "zzz999" "zzz_1234" "01" "/file/path");
               ∅]])]).
  vm_compute. reflexivity.
Defined.
End read_only_part.
